(** * Debt-issuance dashboard: the refresh job (update_data.py) and the
      web handler (app.py), embedded as Rocq functions.

    Conventions of the embedding.
    - A pandas float column is a column of [float]: a finite value is an
      exact rational, and the three IEEE specials NaN, +inf and -inf are
      kept, because the code relies on them (comparisons with NaN are
      false, 0/0 is NaN and is then removed by [fillna]).  Rounding,
      overflow to infinity and the sign of zero are not modelled, so a
      property that holds of exact sums only (percentages that add up
      to exactly 100, say) is not stated of the program.
    - A Timestamp is a calendar date; NaT is [None].  The difference of
      two Timestamps is a Timedelta, which holds at most 106751 days.
    - The file system is a finite map from file names to pickled values,
      and the standard output is a list of lines. *)

From Stdlib Require Import ZArith QArith Qfield Lia Lqa Ascii String.
From stdpp Require Import gmap strings pretty list sorting.

Local Open Scope string_scope.
Local Open Scope Z_scope.

(** ** Floats *)

Module Float.

Inductive float : Type :=
| Fin (q : Q)
| NaN
| PInf
| NInf.

Definition of_Z (z : Z) : float := Fin (inject_Z z).

(** Python's comparison operators: every comparison with NaN is False. *)
Definition leb (a b : float) : bool :=
  match a, b with
  | NaN, _ | _, NaN => false
  | NInf, _ => true
  | _, PInf => true
  | Fin x, Fin y => Qle_bool x y
  | _, _ => false
  end.

Definition ltb (a b : float) : bool :=
  match a, b with
  | NaN, _ | _, NaN => false
  | PInf, _ => false
  | _, NInf => false
  | Fin x, Fin y => Qle_bool x y && negb (Qeq_bool x y)
  | _, _ => true
  end.

Definition gtb (a b : float) : bool := ltb b a.

Definition is_zero (q : Q) : bool := Qeq_bool q 0.
Definition is_pos (q : Q) : bool := Qle_bool 0 q && negb (Qeq_bool q 0).

Definition opp (a : float) : float :=
  match a with
  | Fin x => Fin (- x)
  | NaN => NaN
  | PInf => NInf
  | NInf => PInf
  end.

(** The infinity with the sign of [q]; NaN when [q] is zero. *)
Definition signed_inf (q : Q) : float :=
  if is_zero q then NaN else if is_pos q then PInf else NInf.

Definition add (a b : float) : float :=
  match a, b with
  | NaN, _ | _, NaN => NaN
  | PInf, NInf | NInf, PInf => NaN
  | PInf, _ | _, PInf => PInf
  | NInf, _ | _, NInf => NInf
  | Fin x, Fin y => Fin (x + y)
  end.

Definition mul (a b : float) : float :=
  match a, b with
  | NaN, _ | _, NaN => NaN
  | Fin x, Fin y => Fin (x * y)
  | Fin x, PInf | PInf, Fin x => signed_inf x
  | Fin x, NInf | NInf, Fin x => opp (signed_inf x)
  | PInf, PInf | NInf, NInf => PInf
  | PInf, NInf | NInf, PInf => NInf
  end.

(** numpy division: x/0 is an infinity (NaN for 0/0) and never raises. *)
Definition div (a b : float) : float :=
  match a, b with
  | NaN, _ | _, NaN => NaN
  | Fin x, Fin y => if is_zero y then signed_inf x else Fin (x / y)
  | Fin _, _ => Fin 0
  | _, Fin y => if is_zero y then a else if is_pos y then a else opp a
  | _, _ => NaN
  end.

Definition isna (a : float) : bool :=
  match a with NaN => true | _ => false end.

(** [Series.fillna(v)] on one cell. *)
Definition fillna (v : Q) (a : float) : float :=
  if isna a then Fin v else a.

(** [Series.sum()] with the default [skipna=True]. *)
Definition sum (l : list float) : float :=
  foldr add (Fin 0) (filter (λ a, isna a = false) l).

(** Equality up to the representation of the rational. *)
Definition feq (a b : float) : Prop :=
  match a, b with
  | Fin x, Fin y => x == y
  | NaN, NaN | PInf, PInf | NInf, NInf => True
  | _, _ => False
  end.

Definition is_finite (a : float) : Prop :=
  match a with Fin _ => True | _ => False end.

End Float.

Import Float.

Definition sumQ (l : list Q) : Q := foldr Qplus 0%Q l.

(** ** Dates *)

Record date : Type := Date { year : Z; month : Z; day : Z }.

(** Days since 1970-01-01 of a proleptic Gregorian date: what pandas
    subtracts when two Timestamps are subtracted. *)
Definition to_ordinal (d : date) : Z :=
  let y := if month d <=? 2 then year d - 1 else year d in
  let era := y / 400 in
  let yoe := y - era * 400 in
  let mp := (month d + 9) mod 12 in
  let doy := (153 * mp + 2) / 5 + day d - 1 in
  let doe := yoe * 365 + yoe / 4 - yoe / 100 + doy in
  era * 146097 + doe - 719468.

Definition date_leb (a b : date) : bool := to_ordinal a <=? to_ordinal b.
Definition date_ltb (a b : date) : bool := to_ordinal a <? to_ordinal b.

(** [pd.Grouper(freq='Q')] / [resample('Q')]: the calendar quarter of a
    date, numbered consecutively (4 * year + 0..3). *)
Definition quarter (d : date) : Z := 4 * year d + (month d - 1) / 3.

(** [(a - b).dt.days], NaN when either side is NaT. *)
Definition days_between (a b : option date) : float :=
  match a, b with
  | Some x, Some y => of_Z (to_ordinal x - to_ordinal y)
  | _, _ => NaN
  end.

Definition month_period (d : date) : Z := 12 * year d + (month d - 1).

(** ** pandas Series and DataFrame

    A Series is a list of (label, value); a DataFrame has column labels
    and rows of values aligned with them.  Row labels are period numbers
    ([quarter] or [month_period]). *)

Module Pandas.

Definition Series : Type := list (Z * float).

Record DataFrame : Type := mkDF {
  columns : list string;
  rows : list (Z * list float)
}.

Definition index (df : DataFrame) : list Z := map fst (rows df).

(** [df.empty]: no rows or no columns. *)
Definition empty (df : DataFrame) : bool :=
  match columns df, rows df with
  | [], _ | _, [] => true
  | _, _ => false
  end.

Fixpoint lookup_label {V : Type} (i : Z) (l : list (Z * V)) : option V :=
  match l with
  | [] => None
  | (j, v) :: l' => if Z.eqb i j then Some v else lookup_label i l'
  end.

Fixpoint col_pos (c : string) (cols : list string) : option nat :=
  match cols with
  | [] => None
  | c' :: cols' => if String.eqb c c' then Some O else S <$> col_pos c cols'
  end.

(** [df.loc[i, c]], [None] when the row or the column is absent. *)
Definition loc (df : DataFrame) (i : Z) (c : string) : option float :=
  r ← lookup_label i (rows df);
  p ← col_pos c (columns df);
  r !! p.

(** [df[c]] as a Series (the column must exist). *)
Definition column (df : DataFrame) (c : string) : Series :=
  map (λ r, (r.1, default NaN (p ← col_pos c (columns df); r.2 !! p))) (rows df).

Definition values (s : Series) : list float := map snd s.

(** A frame given by its labels and a cell function. *)
Definition build (idx : list Z) (cols : list string) (f : Z → string → float) : DataFrame :=
  {| columns := cols; rows := map (λ i, (i, map (f i) cols)) idx |}.

(** Sorted, duplicate-free labels, as every group-by and alignment
    produces them. *)
Definition str_le (a b : string) : Prop := String.leb a b = true.

#[global] Instance str_le_dec a b : Decision (str_le a b).
Proof. unfold str_le. apply _. Defined.

Definition sort_uniq_Z (l : list Z) : list Z := merge_sort Z.le (remove_dups l).
Definition sort_uniq_str (l : list string) : list string :=
  merge_sort str_le (remove_dups l).

(** All integers from [lo] to [hi], both included. *)
Definition zrange (lo hi : Z) : list Z :=
  map (λ k, lo + Z.of_nat k) (seq 0 (Z.to_nat (hi - lo + 1))).

Definition zmin (l : list Z) : option Z :=
  match l with [] => None | x :: l' => Some (foldr Z.min x l') end.
Definition zmax (l : list Z) : option Z :=
  match l with [] => None | x :: l' => Some (foldr Z.max x l') end.

(** [df.sum(axis=1)] *)
Definition sum_axis1 (df : DataFrame) : Series :=
  map (λ r, (r.1, Float.sum r.2)) (rows df).

(** [df[mask]] for a boolean Series computed row by row from the same
    frame (so the mask is aligned with the rows). *)
Definition select_rows (df : DataFrame) (mask : Z * list float → bool) : DataFrame :=
  {| columns := columns df; rows := filter (λ r, mask r = true) (rows df) |}.

Definition map_cells (f : float → float) (df : DataFrame) : DataFrame :=
  {| columns := columns df; rows := map (λ r, (r.1, map f r.2)) (rows df) |}.

(** [df.divide(s, axis=0)] / [df.div(s, axis=0)].  When the two indexes
    are equal the rows are divided in place; otherwise both sides are
    aligned on the sorted union of the labels, a label absent on one
    side giving NaN. *)
Definition divide (df : DataFrame) (s : Series) : DataFrame :=
  if decide (index df = map fst s) then
    {| columns := columns df;
       rows := zip_with (λ r e, (r.1, map (λ v, Float.div v e.2) r.2)) (rows df) s |}
  else
    build (sort_uniq_Z (index df ++ map fst s)%list) (columns df)
          (λ i c, Float.div (default NaN (loc df i c)) (default NaN (lookup_label i s))).

(** A Series with a two-level index, as [groupby([..., ...]).sum()]
    returns it, and [unstack(fill_value=v)]. *)
Definition Series2 : Type := list ((Z * string) * float).

Fixpoint lookup2 (i : Z) (c : string) (s : Series2) : option float :=
  match s with
  | [] => None
  | ((j, d), v) :: s' =>
      if Z.eqb i j && String.eqb c d then Some v else lookup2 i c s'
  end.

Definition unstack (fill_value : Q) (s : Series2) : DataFrame :=
  build (sort_uniq_Z (map (λ e, e.1.1) s)) (sort_uniq_str (map (λ e, e.1.2) s))
        (λ i c, default (Fin fill_value) (lookup2 i c s)).

End Pandas.

Import Pandas.

(** [groupby([period, label])[value].sum()]: one entry per observed
    (period, label) pair, in sorted order; NaN values are skipped by
    the sum. *)
Definition observed (i : Z) (c : string) (l : list (Z * string * float)) : bool :=
  existsb (λ e, Z.eqb e.1.1 i && String.eqb e.1.2 c) l.

Definition group_sum (i : Z) (c : string) (l : list (Z * string * float)) : float :=
  Float.sum (map snd (filter (λ e, Z.eqb e.1.1 i && String.eqb e.1.2 c = true) l)).

Definition groupby2_sum (l : list (Z * string * float)) : Series2 :=
  i ← sort_uniq_Z (map (λ e, e.1.1) l);
  c ← sort_uniq_str (map (λ e, e.1.2) l);
  if observed i c l then [((i, c), group_sum i c l)] else [].

(** [resample(freq)[value].sum()]: every period from the first to the
    last one present, empty periods summing to 0. *)
Definition resample_sum (l : list (Z * float)) : Series :=
  match zmin (map fst l), zmax (map fst l) with
  | Some lo, Some hi =>
      map (λ i, (i, Float.sum (map snd (filter (λ e, Z.eqb e.1 i = true) l))))
          (zrange lo hi)
  | _, _ => []
  end.

(** ** The process environment: files, standard output, exceptions *)

(** One row of the US cache, with the columns the programs use. *)
Record auction : Type := mkAuction {
  issue_date : date;
  maturity_date : option date;
  auction_date : option date;
  security_term : string;
  total_accepted : float;
  offering_amt : float;
  duration_days : float;
  maturity_bin : string
}.

Inductive pickle : Type :=
| PAuctions (df : list auction)     (* auctions.pkl *)
| PSummary (df : DataFrame).        (* euro_data_<code>.pkl *)

Inductive exn : Type :=
| FileNotFoundError (path : string)
| KeyError (key : string)
| RequestException (msg : string)
| EcbError (msg : string)
| TypeError (msg : string)
| OverflowError (msg : string).

Definition exn_str (e : exn) : string :=
  match e with
  | FileNotFoundError p => "[Errno 2] No such file or directory: '" ++ p ++ "'"
  | KeyError k => "'" ++ k ++ "'"
  | RequestException m | EcbError m | TypeError m | OverflowError m => m
  end.

Record world : Type := mkWorld {
  files : gmap string pickle;
  stdout : list string
}.

Inductive outcome (A : Type) : Type :=
| Return (a : A)
| Raise (e : exn).
Arguments Return {A} a.
Arguments Raise {A} e.

(** Computations that read and write the world and may raise. *)
Definition M (A : Type) : Type := world → outcome A * world.

Definition ret {A} (a : A) : M A := λ w, (Return a, w).
Definition raise {A} (e : exn) : M A := λ w, (Raise e, w).
Definition bind {A B} (k : A → M B) (m : M A) : M B :=
  λ w, match m w with
       | (Return a, w') => k a w'
       | (Raise e, w') => (Raise e, w')
       end.

#[global] Instance M_ret : MRet M := @ret.
#[global] Instance M_bind : MBind M := @bind.

(** [try: body / except E: handler], [handles] selecting the class E. *)
Definition try_except {A} (body : M A) (handles : exn → bool) (handler : exn → M A) : M A :=
  λ w, match body w with
       | (Raise e, w') => if handles e then handler e w' else (Raise e, w')
       | r => r
       end.

Definition print (line : string) : M unit :=
  λ w, (Return tt, {| files := files w; stdout := (stdout w ++ [line])%list |}).

Definition to_pickle (p : pickle) (path : string) : M unit :=
  λ w, (Return tt, {| files := <[path := p]> (files w); stdout := stdout w |}).

Definition read_pickle (path : string) : M pickle :=
  λ w, match files w !! path with
       | Some p => (Return p, w)
       | None => (Raise (FileNotFoundError path), w)
       end.

(** [for x in xs: body x] *)
Fixpoint for_each {A} (xs : list A) (body : A → M unit) : M unit :=
  match xs with
  | [] => ret tt
  | x :: xs' => body x ;; for_each xs' body
  end.

(** The exit status of a Python process whose main block is [m]:
    0 when it runs to its end, 1 when an exception is not caught. *)
Definition exit_status (o : outcome unit) : Z :=
  match o with Return _ => 0 | Raise _ => 1 end.

Definition nl : string := String "010"%char EmptyString.

(** A Python dict with string keys, in insertion order; [d[k]] raises
    KeyError when the key is absent. *)
Fixpoint dict_get (d : list (string * string)) (k : string) : option string :=
  match d with
  | [] => None
  | (k', v) :: d' => if String.eqb k k' then Some v else dict_get d' k
  end.

Definition dict_item (d : list (string * string)) (k : string) : M string :=
  match dict_get d k with
  | Some v => mret v
  | None => raise (KeyError k)
  end.

(** ** update_data.py *)

Module update_data.

Definition EURO_COUNTRIES : list (string * string) :=
  [("DE", "Germany"); ("IT", "Italy"); ("FR", "France")].
Definition EURO_TENORS : list (string * string) :=
  [("Up to 1Y", "S"); ("1Y-2Y", "Y12"); ("2Y-5Y", "Y25"); ("5Y-10Y", "Y5A"); ("10Y+", "YA_")].
Definition EURO_FLOW_ID : string := "CSEC".

Definition US_AUCTION_ENDPOINT : string := "/v1/accounting/od/auctions_query".
Definition US_AUCTION_CACHE_FILE : string := "auctions.pkl".

(** One element of the [data] array of the US API, after the column
    conversions of [update_us_cache]: [pd.to_datetime] (NaT is [None]),
    and [pd.to_numeric(errors='coerce')] (NaN when not a number).  The
    request filters on [issue_date], which every record carries. *)
Record auction_json : Type := mkJson {
  j_issue_date : date;
  j_maturity_date : option date;
  j_auction_date : option date;
  j_security_term : string;
  j_total_accepted : float;
  j_offering_amt : float
}.

(** What [requests.get(url)] followed by [raise_for_status()] gives:
    a JSON page, or a [RequestException] (network failure, timeout, or
    an error status). *)
Inductive http_response : Type :=
| HttpOk (data : list auction_json) (total_pages : option Z)
| HttpFailed (msg : string).

(** One observation of an ECB series: the remaining index levels, the
    TIME_PERIOD, and the value. *)
Definition ecb_series : Type := list ((string * date) * float).

Inductive ecb_response : Type :=
| EcbOk (series : ecb_series)
| EcbFailed (msg : string).

(** What the programs read from outside. *)
Record env : Type := mkEnv {
  BASE_URL : option string;
  requests_get : string → http_response;
  ecb_data : string → string → ecb_response
}.

Section WithEnv.
Variable E : env.

Definition US_BASE_URL : string :=
  default "https://api.fiscaldata.treasury.gov/services/api/fiscal_service" (BASE_URL E).

Definition tenor_key (country_code tenor_code : string) : string :=
  "M.N." ++ country_code ++ ".W0.S1311.S1.N.LI.F.F3." ++ tenor_code ++ "._Z.EUR.EUR.M.V.N._T".

(** The body of the tenor loop: the [try] appends the series, the
    [except Exception] prints and goes on. *)
Definition fetch_tenor (country_code : string) (tenor : string * string)
    (country_data_frames : list (string * ecb_series)) : M (list (string * ecb_series)) :=
  let '(tenor_name, tenor_code) := tenor in
  let key := tenor_key country_code tenor_code in
  print ("Fetching tenor: " ++ tenor_name ++ "...") ;;
  try_except
    (match ecb_data E EURO_FLOW_ID key with
     | EcbOk series => mret (country_data_frames ++ [(tenor_name, series)])%list
     | EcbFailed msg => raise (EcbError msg)
     end)
    (λ _, true)
    (λ e, print ("  -> Could not retrieve data for tenor '" ++ tenor_name
                 ++ "'. Error: " ++ exn_str e) ;;
          mret country_data_frames).

Fixpoint fetch_tenors (country_code : string) (tenors : list (string * string))
    (country_data_frames : list (string * ecb_series)) : M (list (string * ecb_series)) :=
  match tenors with
  | [] => mret country_data_frames
  | t :: ts =>
      frames ← fetch_tenor country_code t country_data_frames;
      fetch_tenors country_code ts frames
  end.

#[global] Instance date_eq_dec : EqDecision date.
Proof. solve_decision. Defined.

(** [pd.concat(frames, axis=1)] then [reset_index().melt(...)]: one
    long row per (index label, tenor), NaN where the tenor's series has
    no observation at that label. *)
Fixpoint series_get (k : string * date) (s : ecb_series) : float :=
  match s with
  | [] => NaN
  | (k', v) :: s' => if decide (k = k') then v else series_get k s'
  end.

Definition concat_melt (frames : list (string * ecb_series))
    : list ((string * date) * string * float) :=
  let labels := remove_dups (frames ≫= λ f, map fst f.2) in
  f ← frames; k ← labels; [(k, f.1, series_get k f.2)].

(** The consolidation of the fetched series into the monthly summary. *)
Definition consolidate (country_data_frames : list (string * ecb_series)) : DataFrame :=
  let df_long := filter (λ r, isna r.2 = false) (concat_melt country_data_frames) in
  unstack 0 (groupby2_sum (map (λ r, (month_period r.1.1.2, r.1.2, r.2)) df_long)).

Definition get_and_process_euro_data (country_code : string) : M (option DataFrame) :=
  name ← dict_item EURO_COUNTRIES country_code;
  print (nl ++ "--- Fetching EURO data for " ++ name ++ " (" ++ country_code ++ ") ---") ;;
  country_data_frames ← fetch_tenors country_code EURO_TENORS [];
  match country_data_frames with
  | [] => mret None
  | _ =>
      print "Data fetched. Consolidating for cache..." ;;
      mret (Some (consolidate country_data_frames))
  end.

(** The requests of [fetch_us_data] after the first page. *)
Fixpoint fetch_pages (url : Z → string) (pages : list Z) (all_records : list auction_json)
    : outcome (list auction_json) :=
  match pages with
  | [] => Return all_records
  | page_num :: pages' =>
      match requests_get E (url page_num) with
      | HttpOk data _ => fetch_pages url pages' (all_records ++ data)%list
      | HttpFailed msg => Raise (RequestException msg)
      end
  end.

Definition is_request_exception (e : exn) : bool :=
  match e with RequestException _ => true | _ => false end.

Definition page_url (base_url endpoint api_filter : string) (page_size page_number : Z)
    : string :=
  base_url ++ endpoint ++ api_filter ++ "&page[number]=" ++ pretty page_number
  ++ "&page[size]=" ++ pretty page_size.

Definition fetch_us_data (base_url endpoint api_filter : string)
    : M (option (list auction_json)) :=
  print ("🚀 Fetching live US data from " ++ endpoint ++ api_filter ++ "...") ;;
  let page_size := 100 in
  let url := page_url base_url endpoint api_filter page_size in
  fetched ← try_except
    (match requests_get E (url 1) with
     | HttpOk data total_pages =>
         all_records ← (λ w, (fetch_pages url (zrange 2 (default 1 total_pages)) data, w));
         mret (Some all_records)
     | HttpFailed msg => raise (RequestException msg)
     end)
    is_request_exception
    (λ e, print (nl ++ "❌ CRITICAL: Failed to fetch US data from " ++ endpoint ++ ": "
                 ++ exn_str e) ;;
          mret None);
  match fetched with
  | None => mret None
  | Some all_records =>
      print (nl ++ "✅ US Fetch complete. Records: " ++ pretty (length all_records)) ;;
      mret (Some all_records)
  end.

Definition assign_maturity_bin (days : float) : string :=
  if Float.leb days (of_Z 0) then "Other"
  else if Float.ltb days (of_Z 30) then "< 1 Month"
  else if Float.ltb days (of_Z 91) then "1-3 Months"
  else if Float.ltb days (of_Z 365) then "3-12 Months"
  else if Float.ltb days (of_Z (365 * 3)) then "1-3 Years"
  else if Float.ltb days (of_Z (365 * 10)) then "3-10 Years"
  else "10+ Years".

(** A Timedelta holds at most 2^63 - 1 nanoseconds, 106751 whole days;
    the subtraction of the two date columns raises OverflowError when
    the maturity and issue dates of a record are further apart. *)
Definition timedelta_overflows (j : auction_json) : bool :=
  match j_maturity_date j with
  | Some maturity =>
      negb (Z.abs (to_ordinal maturity - to_ordinal (j_issue_date j)) <=? 106751)
  | None => false
  end.

(** The column assignments of [update_us_cache] on one row (the
    duration is the one of a subtraction that does not overflow). *)
Definition prepare_row (j : auction_json) : auction :=
  let duration := days_between (j_maturity_date j) (Some (j_issue_date j)) in
  {| issue_date := j_issue_date j;
     maturity_date := j_maturity_date j;
     auction_date := j_auction_date j;
     security_term := j_security_term j;
     total_accepted := fillna 0 (j_total_accepted j);
     offering_amt := fillna 0 (j_offering_amt j);
     duration_days := duration;
     maturity_bin := assign_maturity_bin duration |}.

Definition update_us_cache (start_year : Z) : M unit :=
  print "--- Starting US Data Update ---" ;;
  let auction_filter := "?filter=issue_date:gte:" ++ pretty start_year ++ "-01-01" in
  auction_df ← fetch_us_data US_BASE_URL US_AUCTION_ENDPOINT auction_filter;
  match auction_df with
  | None => print "❌ US data fetch failed. Cache not updated."
  | Some records =>
      print "⚙️  Processing and preparing US data for cache..." ;;
      match records with
      | [] => raise (KeyError "issue_date")   (* a frame of no records has no columns *)
      | _ =>
          if existsb timedelta_overflows records
          then raise (OverflowError "Overflow in int64 addition")
          else
            to_pickle (PAuctions (map prepare_row records)) US_AUCTION_CACHE_FILE ;;
            print ("✅ US data cache updated and saved to " ++ US_AUCTION_CACHE_FILE)
      end
  end.

Definition update_euro_cache : M unit :=
  print (nl ++ "--- Starting EURO Data Update ---") ;;
  for_each (map fst EURO_COUNTRIES) (λ code,
    monthly_summary ← get_and_process_euro_data code;
    match monthly_summary with
    | Some df =>
        let cache_file := "euro_data_" ++ code ++ ".pkl" in
        to_pickle (PSummary df) cache_file ;;
        print ("✅ Euro data cache for " ++ code ++ " updated and saved to " ++ cache_file)
    | None => mret tt
    end).

(** The main block, on [sys.argv]. *)
Definition main (argv : list string) : M unit :=
  if bool_decide (argv !! 1%nat = Some "daily") then update_us_cache 2000
  else if bool_decide (argv !! 1%nat = Some "monthly") then update_euro_cache
  else
    print "Updating all data sources..." ;;
    update_us_cache 2000 ;;
    update_euro_cache.

(** Running the script: final world and exit status. *)
Definition run (argv : list string) (w : world) : Z * world :=
  let '(o, w') := main argv w in (exit_status o, w').

End WithEnv.

End update_data.

(** ** app.py *)

Module app.

Definition EURO_COUNTRIES : list (string * string) :=
  [("DE", "Germany"); ("IT", "Italy"); ("FR", "France")].
Definition EURO_PLOT_ORDER : list string :=
  ["Up to 1Y"; "1Y-2Y"; "2Y-5Y"; "5Y-10Y"; "10Y+"].
Definition EURO_PLOTLY_COLORS : list (string * string) :=
  [("Up to 1Y", "#3288bd"); ("1Y-2Y", "#abdda4"); ("2Y-5Y", "#fdae61");
   ("5Y-10Y", "#f46d43"); ("10Y+", "#d53e4f")].
Definition US_AUCTION_CACHE_FILE : string := "auctions.pkl".
Definition US_PLOT_ORDER : list string :=
  ["< 1 Month"; "1-3 Months"; "3-12 Months"; "1-3 Years"; "3-10 Years"; "10+ Years"; "Other"].
Definition US_PLOTLY_COLORS : list (string * string) :=
  [("< 1 Month", "#d53e4f"); ("1-3 Months", "#f46d43"); ("3-12 Months", "#fdae61");
   ("1-3 Years", "#abdda4"); ("3-10 Years", "#3288bd"); ("10+ Years", "#5e4fa2");
   ("Other", "#cccccc")].

(** A plotly figure, by what the code puts into it. *)
Record trace : Type := mkTrace {
  name : string;
  x : list Z;
  y : list float;
  line_color : option string
}.

Record figure : Type := mkFigure {
  title_text : string;
  yaxis_title : string;
  traces : list trace;
  shapes : list Z;
  xaxis_range : option (date * date)
}.

(** Markup: literal text, a figure through [pio.to_html], a frame
    through [to_html]; a page fragment is a sequence of these (the empty
    string is the empty sequence). *)
Inductive fragment : Type :=
| Raw (s : string)
| Plot (fig : figure)
| Table (rows : list (date * string * float)).

Definition html : Type := list fragment.

(** The traces of a stacked chart: one per category of [order] that is
    a column of [df] with a positive sum, scaled by [scale]. *)
Definition add_traces (order : list string) (colors : list (string * string))
    (df : DataFrame) (scale : float → float) : list trace :=
  cat ← order;
  if bool_decide (cat ∈ columns df) && Float.gtb (Float.sum (values (column df cat))) (of_Z 0)
  then [{| name := cat; x := index df;
           y := map scale (values (column df cat));
           line_color := dict_get colors cat |}]
  else [].

Definition NO_DATA : html := [Raw "<p>No data to display.</p>"].
Definition NO_POSITIVE : html := [Raw "<p>No positive issuance data to plot.</p>"].

(** [df[monthly_total > 0]] with [monthly_total = df.sum(axis=1)]. *)
Definition positive_rows (df : DataFrame) : DataFrame :=
  select_rows df (λ r, Float.gtb (Float.sum r.2) (of_Z 0)).

Definition euro_pct (df_positive : DataFrame) : DataFrame :=
  let monthly_total_positive := sum_axis1 df_positive in
  map_cells (λ v, Float.mul v (of_Z 100)) (divide df_positive monthly_total_positive).

Definition create_euro_plotly_charts (df : option DataFrame) (country_name : string)
    : html * html :=
  match df with
  | None => (NO_DATA, NO_DATA)
  | Some df =>
      if empty df then (NO_DATA, NO_DATA) else
      let df_positive := positive_rows df in
      if empty df_positive then (NO_POSITIVE, NO_POSITIVE) else
      let shapes := index df_positive in
      let df_pct := euro_pct df_positive in
      let fig_pct :=
        {| title_text := "<b>" ++ country_name ++ " Debt Issuance Mix (by Month)</b>";
           yaxis_title := "Issuance Mix (%)";
           traces := add_traces EURO_PLOT_ORDER EURO_PLOTLY_COLORS df_pct id;
           shapes := shapes; xaxis_range := None |} in
      let df_billions := map_cells (λ v, Float.div v (of_Z 1000)) df_positive in
      let fig_nominal :=
        {| title_text := "<b>" ++ country_name ++ " Nominal Debt Issuance by Tenor (by Month)</b>";
           yaxis_title := "Issuance Amount (€ Billions)";
           traces := add_traces EURO_PLOT_ORDER EURO_PLOTLY_COLORS df_billions id;
           shapes := shapes; xaxis_range := None |} in
      ([Plot fig_pct], [Plot fig_nominal])
  end.

(** The query string, dates already parsed. *)
Record request : Type := mkRequest {
  arg_country : option string;
  arg_start_date : option date;
  arg_end_date : option date
}.

(** The arguments given to [render_template_string]. *)
Record page : Type := mkPage {
  title : string;
  chart_html : html;
  nominal_chart_html : html;
  future_table_html : html;
  selected_country : string;
  start_date : option date;
  end_date : option date
}.

Definition is_file_not_found (e : exn) : bool :=
  match e with FileNotFoundError _ => true | _ => false end.

(** The module-level load of the US cache, run once when the app starts. *)
Definition load_US_DASHBOARD_DATA : M pickle :=
  try_except
    (df ← read_pickle US_AUCTION_CACHE_FILE;
     print ("✅ Successfully loaded US data from cache file: " ++ US_AUCTION_CACHE_FILE) ;;
     mret df)
    is_file_not_found
    (λ _, print "⚠️ WARNING: US cache file not found. US charts will be empty until the update script is run." ;;
          mret (PAuctions [])).

Definition pickle_empty (p : pickle) : bool :=
  match p with
  | PAuctions [] => true
  | PAuctions _ => false
  | PSummary df => empty df
  end.

Definition US_EMPTY : html := [Raw "<p>US data cache is empty. Please run the update script.</p>"].
Definition NO_RANGE : html := [Raw "<p>No data for selected date range.</p>"].

Definition min_date (d : date) (l : list date) : date :=
  foldr (λ a b, if date_leb a b then a else b) d l.

Definition auction_date_le (a b : date * string * float) : Prop :=
  to_ordinal a.1.1 <= to_ordinal b.1.1.

#[global] Instance auction_date_le_dec a b : Decision (auction_date_le a b).
Proof. unfold auction_date_le. apply _. Defined.

Definition quarterly_issuance (df_filtered : list auction) : Series :=
  resample_sum (map (λ r, (quarter (issue_date r), total_accepted r)) df_filtered).

Definition quarterly_mix_nominal (df_filtered : list auction) : DataFrame :=
  unstack 0 (groupby2_sum
    (map (λ r, (quarter (issue_date r), maturity_bin r, total_accepted r)) df_filtered)).

Definition quarterly_mix_pct (df_filtered : list auction) : DataFrame :=
  map_cells (λ v, Float.mul v (of_Z 100))
    (map_cells (fillna 0)
       (divide (quarterly_mix_nominal df_filtered) (quarterly_issuance df_filtered))).

(** [US_DASHBOARD_DATA.loc[mask]] for the date window. *)
Definition filter_range (start_date end_date : date) (data : list auction) : list auction :=
  filter (λ r, date_leb start_date (issue_date r) && date_leb (issue_date r) end_date = true)
         data.

(** The forthcoming-auctions table, sorted by auction date.  The order
    among auctions of the same date is the one the sort leaves them in:
    [sort_values] does not fix it either (its default sort is not
    stable). *)
Definition future_table (data : list auction) (today : date) : html :=
  let df_future :=
    omap (λ r, match auction_date r with
               | Some a => if date_ltb today a
                           then Some (a, security_term r, Float.div (offering_amt r) (of_Z 1000000000))
                           else None
               | None => None
               end) data in
  match df_future with
  | [] => [Raw "<h2>Forthcoming Auctions</h2>"; Raw "<p>No future auctions currently announced.</p>"]
  | _ => [Raw "<h2>Forthcoming Auctions</h2>"; Table (merge_sort auction_date_le df_future)]
  end.

(** The US branch of [dashboard] on a non-empty cache. *)
Definition us_dashboard (data : list auction) (first : auction) (today : date)
    (args : request) : page :=
  let default_start := min_date (issue_date first) (map issue_date data) in
  let start_date := default default_start (arg_start_date args) in
  let end_date := default today (arg_end_date args) in
  let df_filtered := filter_range start_date end_date data in
  let charts :=
    match df_filtered with
    | [] => (NO_RANGE, NO_RANGE)
    | _ =>
        let pct := quarterly_mix_pct df_filtered in
        let nominal := quarterly_mix_nominal df_filtered in
        let shapes := index pct in
        ([Plot {| title_text := "<b>U.S. Treasury Debt Issuance Mix (by Quarter)</b>";
                  yaxis_title := "Issuance Mix (%)";
                  traces := add_traces US_PLOT_ORDER US_PLOTLY_COLORS pct id;
                  shapes := shapes; xaxis_range := Some (start_date, today) |}],
         [Plot {| title_text := "<b>Nominal Debt Issuance by Maturity (by Quarter)</b>";
                  yaxis_title := "Issuance Amount ($ Billions)";
                  traces := add_traces US_PLOT_ORDER US_PLOTLY_COLORS nominal
                              (λ v, Float.div v (of_Z 1000000000));
                  shapes := shapes; xaxis_range := Some (start_date, today) |}])
    end in
  {| title := "U.S. Treasury Debt Issuance Dashboard";
     chart_html := charts.1; nominal_chart_html := charts.2;
     future_table_html := future_table data today;
     selected_country := "US";
     start_date := Some start_date; end_date := Some end_date |}.

(** The route handler, on the data loaded at start-up, the clock and
    the query string.  Each cache file has one writer, so a file holds
    the table of its own source; on a table of the other source the
    handler fails where pandas does (no [issue_date] column in a Euro
    summary, no numeric row sum over the date columns of the US table),
    unless the table is empty. *)
Definition dashboard (US_DASHBOARD_DATA : pickle) (today : date) (args : request) : M page :=
  let selected_country_code := default "US" (arg_country args) in
  let blank (title : string) (chart : html) :=
    {| title := title; chart_html := chart; nominal_chart_html := chart;
       future_table_html := []; selected_country := selected_country_code;
       start_date := None; end_date := None |} in
  if String.eqb selected_country_code "US" then
    if pickle_empty US_DASHBOARD_DATA
    then mret (blank "U.S. Treasury Debt Issuance Dashboard" US_EMPTY)
    else match US_DASHBOARD_DATA with
         | PAuctions (first :: rest) => mret (us_dashboard (first :: rest) first today args)
         | _ => raise (KeyError "issue_date")
         end
  else match dict_get EURO_COUNTRIES selected_country_code with
       | Some country_name =>
           let title := country_name ++ " Debt Issuance Dashboard" in
           charts ← try_except
             (let euro_cache_file := "euro_data_" ++ selected_country_code ++ ".pkl" in
              monthly_summary_df ← read_pickle euro_cache_file;
              print ("✅ Successfully loaded EURO data from cache file: " ++ euro_cache_file) ;;
              match monthly_summary_df with
              | PSummary df => mret (create_euro_plotly_charts (Some df) country_name)
              | PAuctions [] => mret (NO_DATA, NO_DATA)
              | PAuctions _ => raise (TypeError "unsupported operand type(s) for +")
              end)
             is_file_not_found
             (λ _, print ("⚠️ WARNING: EURO cache file for " ++ selected_country_code
                          ++ " not found. Charts will be empty until the update script is run.") ;;
                   let msg := [Raw ("<p>Euro data cache for " ++ country_name
                                    ++ " is empty. Please run the update script.</p>")] in
                   mret (msg, msg));
           mret {| title := title; chart_html := charts.1; nominal_chart_html := charts.2;
                   future_table_html := []; selected_country := selected_country_code;
                   start_date := None; end_date := None |}
       | None => mret (blank "Debt Issuance Dashboard" [])
       end.

(** Starting the app on a file system and serving one request. *)
Definition serve (today : date) (args : request) : M page :=
  data ← load_US_DASHBOARD_DATA;
  dashboard data today args.

End app.

Import update_data app.

(** ** Sample inputs *)

Definition sample_records : list auction_json :=
  [mkJson (Date 2024 1 15) (Some (Date 2024 3 1)) None "4-Week" (of_Z 100) (of_Z 0);
   mkJson (Date 2024 2 20) (Some (Date 2034 2 20)) None "10-Year" (of_Z 300) (of_Z 0);
   mkJson (Date 2024 8 1) None (Some (Date 2030 1 1)) "13-Week" NaN (of_Z 50)].

Definition sample_cache : list auction := map prepare_row sample_records.

Definition sample_files : gmap string pickle :=
  {[ "auctions.pkl" := PAuctions sample_cache ]}.

(** The US API is down; the ECB serves one tenor for Germany only. *)
Definition env_us_down : env :=
  {| BASE_URL := None;
     requests_get := λ _, HttpFailed "503 Server Error: Service Unavailable";
     ecb_data := λ _ key,
       if String.eqb key (tenor_key "DE" "S")
       then EcbOk [(("M.N.DE", Date 2020 1 1), of_Z 5); (("M.N.DE", Date 2020 2 1), of_Z 7)]
       else EcbFailed "404 Not Found" |}.

Definition sample_today : date := Date 2024 9 1.
Definition sample_request : request :=
  {| arg_country := None; arg_start_date := None; arg_end_date := None |}.
Definition sample_request_IT : request :=
  {| arg_country := Some "IT"; arg_start_date := None; arg_end_date := None |}.

(** A file system without the US cache, and one whose US cache holds a
    table without rows. *)
Definition files_no_us_cache : gmap string pickle := ∅.
Definition files_empty_us_cache : gmap string pickle :=
  {[ "auctions.pkl" := PAuctions [] ]}.

(** ** Vocabulary of the statements *)

(** The URL of page [page_number] in the daily refresh. *)
Definition daily_url (E : env) (page_number : Z) : string :=
  page_url (US_BASE_URL E) US_AUCTION_ENDPOINT
           ("?filter=issue_date:gte:" ++ pretty 2000 ++ "-01-01") 100 page_number.

(** The upstream fetch fails: on the first page, or on one of the pages
    announced by the first. *)
Definition us_fetch_fails (E : env) : Prop :=
  (∃ msg, requests_get E (daily_url E 1) = HttpFailed msg) ∨
  (∃ data total_pages p msg,
     requests_get E (daily_url E 1) = HttpOk data total_pages ∧
     p ∈ zrange 2 (default 1 total_pages) ∧
     requests_get E (daily_url E p) = HttpFailed msg).

(** What the request for one tenor yields: its name and series, or
    nothing when the request raises. *)
Definition tenor_result (E : env) (country_code : string) (tenor : string * string)
    : option (string * ecb_series) :=
  match ecb_data E EURO_FLOW_ID (tenor_key country_code tenor.2) with
  | EcbOk series => Some (tenor.1, series)
  | EcbFailed _ => None
  end.

(** The tenors of a country whose request succeeds, in request order. *)
Definition succeeded (E : env) (country_code : string) : list (string * ecb_series) :=
  omap (tenor_result E country_code) EURO_TENORS.

Definition euro_cache_file (country_code : string) : string :=
  "euro_data_" ++ country_code ++ ".pkl".

(** A computation that returns [a], keeps the files and only prints. *)
Definition prints {A} (m : M A) (a : A) : Prop :=
  ∀ w, ∃ out, m w = (Return a, {| files := files w; stdout := app (stdout w) out |}).

(** A computation that returns [a], prints, and changes the files by [g]. *)
Definition writes {A} (m : M A) (a : A) (g : gmap string pickle → gmap string pickle) : Prop :=
  ∀ w, ∃ out, m w = (Return a, {| files := g (files w); stdout := app (stdout w) out |}).

(** What the refresh of one country does to the files. *)
Definition euro_write (E : env) (country_code : string) (fs : gmap string pickle)
    : gmap string pickle :=
  match succeeded E country_code with
  | [] => fs
  | frames => <[euro_cache_file country_code := PSummary (consolidate frames)]> fs
  end.

(** The cache file read for a selected country, and the message the
    handler shows in place of the charts when that file is missing. *)
Definition cache_file (country : string) : option string :=
  if String.eqb country "US" then Some app.US_AUCTION_CACHE_FILE
  else (λ _, euro_cache_file country) <$> dict_get app.EURO_COUNTRIES country.

Definition euro_missing (country_name : string) : html :=
  [Raw ("<p>Euro data cache for " ++ country_name
        ++ " is empty. Please run the update script.</p>")].

Definition placeholder (country : string) : html :=
  if String.eqb country "US" then US_EMPTY
  else default [] (euro_missing <$> dict_get app.EURO_COUNTRIES country).

(** A computation that deletes no file. *)
Definition never_deletes {A} (m : M A) : Prop :=
  ∀ w path, files (m w).2 !! path = None → files w !! path = None.

(** The lines the failed refresh prints. *)
Definition us_failure_log (msg : string) : list string :=
  ["--- Starting US Data Update ---";
   "🚀 Fetching live US data from " ++ US_AUCTION_ENDPOINT
     ++ ("?filter=issue_date:gte:" ++ pretty 2000 ++ "-01-01") ++ "...";
   nl ++ "❌ CRITICAL: Failed to fetch US data from " ++ US_AUCTION_ENDPOINT ++ ": " ++ msg;
   "❌ US data fetch failed. Cache not updated."].

(** The value [resample_sum] gives to period [i]. *)
Definition period_sum (l : list (Z * float)) (i : Z) : float :=
  Float.sum (map snd (filter (λ e, Z.eqb e.1 i = true) l)).

(** A finite, non-negative amount. *)
Definition nonneg (a : float) : Prop :=
  match a with Fin q => (0 <= q)%Q | _ => False end.

Definition to_Q (a : float) : Q :=
  match a with Fin q => q | _ => 0%Q end.

(** Accepted amounts of the rows of quarter [i], and of those among them
    that carry the label [c]. *)
Definition total_Q (df : list auction) (i : Z) : Q :=
  sumQ (map (λ r, to_Q (total_accepted r))
            (filter (λ r, Z.eqb (quarter (issue_date r)) i = true) df)).

Definition bucket_Q (df : list auction) (i : Z) (c : string) : Q :=
  sumQ (map (λ r, to_Q (total_accepted r))
            (filter (λ r, Z.eqb (quarter (issue_date r)) i
                          && String.eqb (maturity_bin r) c = true) df)).

(** ** Vocabulary of the further properties *)

(** A computation with outcome [o] that prints and changes the files by [h]. *)
Definition effects {A} (m : M A) (o : outcome A)
    (h : gmap string pickle → gmap string pickle) : Prop :=
  ∀ w, ∃ out, m w = (o, {| files := h (files w); stdout := app (stdout w) out |}).

(** A change of the files that sets some paths to fixed values and
    leaves the others. *)
Definition overlay (h : gmap string pickle → gmap string pickle) : Prop :=
  ∃ t : string → option pickle,
    ∀ fs path, h fs !! path = match t path with Some p => Some p | None => fs !! path end.

(** The records of the page at [url], none when the request fails. *)
Definition page_data (E : env) (url : string) : list auction_json :=
  match requests_get E url with
  | HttpOk data _ => data
  | HttpFailed _ => []
  end.

(** The query filter of the refresh, for the default start year. *)
Definition daily_filter : string := "?filter=issue_date:gte:" ++ pretty 2000 ++ "-01-01".

(** What [fetch_us_data] returns under an environment. *)
Definition us_fetch_result (E : env) (base_url endpoint api_filter : string)
    : option (list auction_json) :=
  let url := page_url base_url endpoint api_filter 100 in
  match requests_get E (url 1) with
  | HttpOk data total_pages =>
      match fetch_pages E url (zrange 2 (default 1 total_pages)) data with
      | Return all_records => Some all_records
      | Raise _ => None
      end
  | HttpFailed _ => None
  end.

Definition us_daily_result (E : env) : option (list auction_json) :=
  us_fetch_result E (US_BASE_URL E) US_AUCTION_ENDPOINT daily_filter.

(** What [update_us_cache] does to the files, and how it ends. *)
Definition us_write (E : env) (fs : gmap string pickle) : gmap string pickle :=
  match us_daily_result E with
  | Some (r :: rs) =>
      if existsb timedelta_overflows (r :: rs) then fs
      else <[update_data.US_AUCTION_CACHE_FILE := PAuctions (map prepare_row (r :: rs))]> fs
  | _ => fs
  end.

Definition us_outcome (E : env) : outcome unit :=
  match us_daily_result E with
  | Some [] => Raise (KeyError "issue_date")
  | Some (r :: rs) =>
      if existsb timedelta_overflows (r :: rs)
      then Raise (OverflowError "Overflow in int64 addition")
      else Return tt
  | None => Return tt
  end.


(** What a run of the script does to the files, and how it ends. *)
Definition euro_writes (E : env) (fs : gmap string pickle) : gmap string pickle :=
  euro_write E "FR" (euro_write E "IT" (euro_write E "DE" fs)).

Definition main_write (E : env) (argv : list string) (fs : gmap string pickle)
    : gmap string pickle :=
  if bool_decide (argv !! 1%nat = Some "daily") then us_write E fs
  else if bool_decide (argv !! 1%nat = Some "monthly") then euro_writes E fs
  else match us_outcome E with
       | Return _ => euro_writes E (us_write E fs)
       | Raise _ => us_write E fs
       end.

Definition main_outcome (E : env) (argv : list string) : outcome unit :=
  if bool_decide (argv !! 1%nat = Some "daily") then us_outcome E
  else if bool_decide (argv !! 1%nat = Some "monthly") then Return tt
  else us_outcome E.

(** Every page of the daily fetch is served; [records] are the pages'
    records in page order. *)
Definition us_fetch_succeeds (E : env) (records : list auction_json) : Prop :=
  ∃ data total_pages,
    requests_get E (daily_url E 1) = HttpOk data total_pages ∧
    (∀ p, p ∈ zrange 2 (default 1 total_pages) →
          ∃ d t, requests_get E (daily_url E p) = HttpOk d t) ∧
    records = app data (concat (map (λ p, page_data E (daily_url E p))
                                    (zrange 2 (default 1 total_pages)))).

(** What holds of each row the refresh writes to the US cache. *)
Definition row_prepared (r : auction) : Prop :=
  isna (total_accepted r) = false ∧ isna (offering_amt r) = false ∧
  duration_days r = days_between (maturity_date r) (Some (issue_date r)) ∧
  maturity_bin r = assign_maturity_bin (duration_days r) ∧
  maturity_bin r ∈ US_PLOT_ORDER.

Definition us_cache_prepared (fs : gmap string pickle) : Prop :=
  ∀ df, fs !! update_data.US_AUCTION_CACHE_FILE = Some (PAuctions df) →
        Forall row_prepared df.

(** The upstream API serves three records on two pages. *)
Definition env_two_pages : env :=
  {| BASE_URL := None;
     requests_get := λ url,
       if String.eqb url (page_url "https://api.fiscaldata.treasury.gov/services/api/fiscal_service"
                                   update_data.US_AUCTION_ENDPOINT daily_filter 100 1)
       then HttpOk (take 2 sample_records) (Some 2)
       else HttpOk (drop 2 sample_records) (Some 2);
     ecb_data := λ _ _, EcbFailed "404 Not Found" |}.

(** The upstream API answers with no record. *)
Definition env_no_records : env :=
  {| BASE_URL := None; requests_get := λ _, HttpOk [] None;
     ecb_data := λ _ _, EcbFailed "404 Not Found" |}.

(** A monthly Euro summary with one month of issuance and one month
    without (January and February 2020). *)
Definition sample_summary : DataFrame :=
  mkDF ["10Y+"; "Up to 1Y"]
       [(month_period (Date 2020 1 1), [of_Z 15; of_Z 5]);
        (month_period (Date 2020 2 1), [of_Z 0; of_Z 0])].


(** The display order and the colours of the page of a country code. *)
Definition plot_order (code : string) : list string :=
  if String.eqb code "US" then app.US_PLOT_ORDER else app.EURO_PLOT_ORDER.
Definition plot_colors (code : string) : list (string * string) :=
  if String.eqb code "US" then app.US_PLOTLY_COLORS else app.EURO_PLOTLY_COLORS.

(** The legend of a chart follows the display order of the page, and
    each trace is drawn in the colour of its category, with one value
    for each of its dates. *)
Definition legend_in_order (code : string) (traces : list trace) : Prop :=
  sublist (map name traces) (plot_order code) ∧
  ∀ tr, tr ∈ traces →
    ∃ colour, dict_get (plot_colors code) (name tr) = Some colour ∧
              line_color tr = Some colour ∧
              length (y tr) = length (x tr).

(** * Properties *)

(** ** Comparisons on integer-valued floats *)

Lemma leb_of_Z (a b : Z) : Float.leb (of_Z a) (of_Z b) = (a <=? b).
Proof.
  unfold Float.leb, of_Z, Qle_bool, inject_Z. simpl.
  rewrite !Z.mul_1_r. reflexivity.
Qed.

Lemma ltb_of_Z (a b : Z) : Float.ltb (of_Z a) (of_Z b) = (a <? b).
Proof.
  unfold Float.ltb, of_Z, Qle_bool, Qeq_bool, inject_Z. simpl.
  rewrite !Z.mul_1_r.
  destruct (Z.leb_spec a b), (Z.ltb_spec a b), (Z.eqb_spec a b); simpl;
    try reflexivity; lia.
Qed.

(** ** The maturity binner *)

Lemma assign_maturity_bin_of_Z (d : Z) :
  assign_maturity_bin (of_Z d) =
    if d <=? 0 then "Other"
    else if d <? 30 then "< 1 Month"
    else if d <? 91 then "1-3 Months"
    else if d <? 365 then "3-12 Months"
    else if d <? 1095 then "1-3 Years"
    else if d <? 3650 then "3-10 Years"
    else "10+ Years".
Proof.
  unfold assign_maturity_bin. rewrite leb_of_Z, !ltb_of_Z. reflexivity.
Qed.

(** Every value of the binner, on any float, is one of the seven labels. *)
Lemma assign_maturity_bin_label (days : float) :
  assign_maturity_bin days ∈ US_PLOT_ORDER.
Proof.
  unfold assign_maturity_bin, US_PLOT_ORDER.
  repeat (match goal with |- context [if ?b then _ else _] => destruct b end;
          [set_solver|]).
  set_solver.
Qed.

(** On a defined duration the label is "Other" exactly when [d <= 0]. *)
Lemma assign_maturity_bin_other (d : Z) :
  assign_maturity_bin (of_Z d) = "Other" ↔ d <= 0.
Proof.
  rewrite assign_maturity_bin_of_Z.
  destruct (Z.leb_spec d 0); [tauto|].
  split; [|lia].
  repeat (match goal with |- context [if ?b then _ else _] => destruct b end;
          [discriminate|]).
  discriminate.
Qed.

(** C1. The claim wants "Other" for an undefined duration.  A record
    whose maturity date is missing (NaT) has a NaN duration; every
    comparison of the binner is then false and the record falls through
    to the last label, "10+ Years", not "Other". *)
Theorem assign_maturity_bin_undefined (issue : date) :
  days_between None (Some issue) = NaN ∧
  assign_maturity_bin NaN = "10+ Years" ∧
  assign_maturity_bin NaN ≠ "Other" ∧
  maturity_bin (prepare_row (mkJson (Date 2024 8 1) None None "13-Week" (of_Z 100) (of_Z 100)))
    = "10+ Years".
Proof. repeat split. discriminate. Qed.

(** C2, as the code has it.  On every defined integer duration the
    binner returns the label of the threshold table, the first label
    being spelled "< 1 Month", with a space, as in US_PLOT_ORDER; the
    three scenarios hold. *)
Theorem assign_maturity_bin_thresholds (d : Z) :
  (0 < d < 30 → assign_maturity_bin (of_Z d) = "< 1 Month") ∧
  (30 <= d < 91 → assign_maturity_bin (of_Z d) = "1-3 Months") ∧
  (91 <= d < 365 → assign_maturity_bin (of_Z d) = "3-12 Months") ∧
  (365 <= d < 1095 → assign_maturity_bin (of_Z d) = "1-3 Years") ∧
  (1095 <= d < 3650 → assign_maturity_bin (of_Z d) = "3-10 Years") ∧
  (3650 <= d → assign_maturity_bin (of_Z d) = "10+ Years") ∧
  (d <= 0 → assign_maturity_bin (of_Z d) = "Other") ∧
  assign_maturity_bin (of_Z 45) = "1-3 Months" ∧
  assign_maturity_bin (of_Z 0) = "Other" ∧
  assign_maturity_bin (of_Z 3650) = "10+ Years".
Proof.
  rewrite assign_maturity_bin_of_Z.
  repeat split; try reflexivity; intros H;
    repeat (match goal with
            | |- context [if ?a <=? ?b then _ else _] => destruct (Z.leb_spec a b); try lia
            | |- context [if ?a <? ?b then _ else _] => destruct (Z.ltb_spec a b); try lia
            end);
    reflexivity.
Qed.

Lemma assign_maturity_bin_thresholds_witness :
  30 <= 45 < 91 ∧ assign_maturity_bin (of_Z 45) = "1-3 Months".
Proof.
  split; [lia|].
  destruct (assign_maturity_bin_thresholds 45) as (_ & H & _).
  apply H. lia.
Defined.

(** C2, as the claim has it: a duration of 5 days, between 0 and 30,
    would get the label "<1 Month".  The binner returns "< 1 Month". *)
Lemma assign_maturity_bin_label_spelling :
  0 < 5 < 30 ∧
  assign_maturity_bin (of_Z 5) = "< 1 Month" ∧
  ¬ (0 < 5 < 30 → assign_maturity_bin (of_Z 5) = "<1 Month").
Proof.
  split; [lia|]. split; [reflexivity|].
  intros H. specialize (H ltac:(lia)). discriminate H.
Qed.

(** ** Labels, lookups and frames *)

Section Labels.

Lemma elem_of_sort_uniq_Z (l : list Z) (i : Z) : i ∈ sort_uniq_Z l ↔ i ∈ l.
Proof.
  unfold sort_uniq_Z. rewrite merge_sort_Permutation. apply elem_of_remove_dups.
Qed.

Lemma elem_of_sort_uniq_str (l : list string) (c : string) : c ∈ sort_uniq_str l ↔ c ∈ l.
Proof.
  unfold sort_uniq_str. rewrite merge_sort_Permutation. apply elem_of_remove_dups.
Qed.

Lemma NoDup_sort_uniq_str (l : list string) : NoDup (sort_uniq_str l).
Proof.
  unfold sort_uniq_str. rewrite merge_sort_Permutation. apply NoDup_remove_dups.
Qed.

Lemma elem_of_zrange (lo hi i : Z) : i ∈ zrange lo hi ↔ lo <= i <= hi.
Proof.
  unfold zrange. rewrite list_elem_of_fmap. split.
  - intros (k & -> & Hk). apply elem_of_seq in Hk. lia.
  - intros H. exists (Z.to_nat (i - lo)). split; [lia|].
    apply elem_of_seq. lia.
Qed.

Lemma lookup_label_map {V} (g : Z → V) (idx : list Z) (i : Z) :
  lookup_label i (map (λ j, (j, g j)) idx) = if bool_decide (i ∈ idx) then Some (g i) else None.
Proof.
  induction idx as [|j idx IH]; simpl.
  - reflexivity.
  - destruct (Z.eqb_spec i j) as [->|Hne].
    + rewrite bool_decide_eq_true_2 by set_solver. reflexivity.
    + rewrite IH. apply (f_equal (λ b : bool, if b then Some (g i) else None)).
      apply bool_decide_ext. set_solver.
Qed.

Lemma col_pos_lookup (c : string) (cols : list string) :
  c ∈ cols → ∃ p, col_pos c cols = Some p ∧ cols !! p = Some c.
Proof.
  induction cols as [|c' cols IH]; intros Hin; [set_solver|]. simpl.
  destruct (String.eqb_spec c c') as [->|Hne].
  - exists O. split; reflexivity.
  - destruct IH as (p & Hp & Hl); [set_solver|].
    exists (S p). rewrite Hp. split; [reflexivity|exact Hl].
Qed.

Lemma loc_build (idx : list Z) (cols : list string) (f : Z → string → float) i c :
  c ∈ cols →
  loc (build idx cols f) i c = if bool_decide (i ∈ idx) then Some (f i c) else None.
Proof.
  intros Hc. unfold loc, build. simpl.
  rewrite (lookup_label_map (λ j, map (f j) cols)).
  destruct (bool_decide (i ∈ idx)); simpl; [|reflexivity].
  destruct (col_pos_lookup c cols Hc) as (p & -> & Hl). simpl.
  rewrite list_lookup_fmap, Hl. reflexivity.
Qed.

Lemma build_ext (idx : list Z) (cols : list string) (f g : Z → string → float) :
  (∀ i c, i ∈ idx → c ∈ cols → f i c = g i c) → build idx cols f = build idx cols g.
Proof.
  intros H. unfold build. f_equal.
  apply list_fmap_ext. intros k i Hi. f_equal.
  apply list_fmap_ext. intros k' c Hc.
  apply H; eapply list_elem_of_lookup_2; eassumption.
Qed.

Lemma zip_with_map_same {A B C D} (h : B → C → D) (a : A → B) (b : A → C) (l : list A) :
  zip_with h (map a l) (map b l) = map (λ i, h (a i) (b i)) l.
Proof. induction l; simpl; congruence. Qed.

Lemma index_build idx cols f : index (build idx cols f) = idx.
Proof.
  unfold index, build. simpl.
  induction idx as [|i idx IH]; simpl; [reflexivity|]. f_equal. exact IH.
Qed.

End Labels.

(** ** Group-by and unstack *)

Section GroupBy.
Variable l : list (Z * string * float).

Lemma lookup2_app i c (s1 s2 : Series2) :
  lookup2 i c (s1 ++ s2)%list =
    match lookup2 i c s1 with Some v => Some v | None => lookup2 i c s2 end.
Proof.
  induction s1 as [|[[j d] v] s1 IH]; simpl; [reflexivity|].
  destruct (Z.eqb i j && String.eqb c d); [reflexivity|exact IH].
Qed.

Lemma observed_spec i c :
  observed i c l = true ↔ ∃ v, (i, c, v) ∈ l.
Proof.
  unfold observed. rewrite existsb_exists. split.
  - intros ([[j d] v] & Hin & Hb). simpl in Hb.
    apply andb_true_iff in Hb as [->%Z.eqb_eq ->%String.eqb_eq].
    exists v. apply list_elem_of_In. exact Hin.
  - intros (v & Hin). exists (i, c, v). split; [apply list_elem_of_In; exact Hin|].
    simpl. rewrite Z.eqb_refl, String.eqb_refl. reflexivity.
Qed.

(** An unobserved pair sums to zero, which is also the fill value. *)
Lemma group_sum_unobserved i c : observed i c l = false → group_sum i c l = Fin 0.
Proof.
  intros Hobs. unfold group_sum, observed in *.
  induction l as [|e l' IH]; [reflexivity|].
  simpl in Hobs. apply orb_false_iff in Hobs as [He Hl'].
  rewrite filter_cons_False by (rewrite He; discriminate).
  apply IH. exact Hl'.
Qed.

Lemma lookup2_groups (I : list Z) (C : list string) (g : Z → string → float) i c :
  lookup2 i c (i' ← I; c' ← C; if observed i' c' l then [((i', c'), g i' c')] else []) =
    if bool_decide (i ∈ I) && bool_decide (c ∈ C) && observed i c l
    then Some (g i c) else None.
Proof.
  induction I as [|i' I IHI]; [reflexivity|].
  rewrite bind_cons, lookup2_app, IHI. clear IHI.
  assert (lookup2 i c (c' ← C; if observed i' c' l then [((i', c'), g i' c')] else []) =
          if bool_decide (i = i') && bool_decide (c ∈ C) && observed i c l
          then Some (g i c) else None) as ->.
  { induction C as [|c' C IHC].
    - simpl. rewrite andb_false_r. reflexivity.
    - rewrite bind_cons, lookup2_app, IHC. clear IHC.
      destruct (observed i' c' l) eqn:Hobs; simpl.
      + destruct (Z.eqb_spec i i') as [->|Hi], (String.eqb_spec c c') as [->|Hc]; simpl.
        * rewrite !bool_decide_eq_true_2 by set_solver. simpl. rewrite Hobs. reflexivity.
        * rewrite (bool_decide_ext (c ∈ c' :: C) (c ∈ C)) by set_solver. reflexivity.
        * rewrite (bool_decide_eq_false_2 (i = i')) by done. reflexivity.
        * rewrite (bool_decide_eq_false_2 (i = i')) by done. reflexivity.
      + destruct (decide (i = i')) as [->|Hi].
        * rewrite bool_decide_eq_true_2 by done. simpl.
          destruct (decide (c = c')) as [->|Hc].
          -- rewrite Hobs, !andb_false_r. reflexivity.
          -- rewrite (bool_decide_ext (c ∈ c' :: C) (c ∈ C)) by set_solver. reflexivity.
        * rewrite (bool_decide_eq_false_2 (i = i')) by done. reflexivity. }
  destruct (decide (i = i')) as [->|Hi].
  - rewrite (bool_decide_eq_true_2 (i' = i')) by done.
    rewrite (bool_decide_eq_true_2 (i' ∈ i' :: I)) by set_solver.
    destruct (bool_decide (c ∈ C)), (observed i' c l), (bool_decide (i' ∈ I)); reflexivity.
  - rewrite (bool_decide_eq_false_2 (i = i')) by done. simpl.
    rewrite (bool_decide_ext (i ∈ i' :: I) (i ∈ I)) by set_solver. reflexivity.
Qed.

Lemma lookup2_groupby2_sum i c :
  lookup2 i c (groupby2_sum l) = if observed i c l then Some (group_sum i c l) else None.
Proof.
  unfold groupby2_sum. rewrite lookup2_groups.
  destruct (observed i c l) eqn:Hobs; [|rewrite andb_false_r; reflexivity].
  apply observed_spec in Hobs as (v & Hin).
  rewrite !bool_decide_eq_true_2; [reflexivity| |].
  - apply elem_of_sort_uniq_str, list_elem_of_fmap. exists (i, c, v). done.
  - apply elem_of_sort_uniq_Z, list_elem_of_fmap. exists (i, c, v). done.
Qed.

(** A cell of the unstacked table is the sum of its group. *)
Lemma unstack_cell i c :
  default (Fin 0) (lookup2 i c (groupby2_sum l)) = group_sum i c l.
Proof.
  rewrite lookup2_groupby2_sum.
  destruct (observed i c l) eqn:Hobs; simpl; [reflexivity|].
  symmetry. apply group_sum_unobserved. exact Hobs.
Qed.

Lemma elem_of_groupby2_sum e :
  e ∈ groupby2_sum l ↔ observed e.1.1 e.1.2 l = true ∧ e.2 = group_sum e.1.1 e.1.2 l.
Proof.
  unfold groupby2_sum. rewrite list_elem_of_bind. split.
  - intros (i & Hin & _). apply list_elem_of_bind in Hin as (c & Hin & _).
    destruct (observed i c l) eqn:Hobs; [|set_solver].
    apply list_elem_of_singleton in Hin as ->. simpl. done.
  - destruct e as [[i c] v]. simpl. intros [Hobs ->].
    pose proof Hobs as (v & Hin)%observed_spec.
    exists i. split.
    + apply list_elem_of_bind. exists c. rewrite Hobs. split; [set_solver|].
      apply elem_of_sort_uniq_str, list_elem_of_fmap. exists (i, c, v). done.
    + apply elem_of_sort_uniq_Z, list_elem_of_fmap. exists (i, c, v). done.
Qed.

(** The row and column labels after unstacking are the periods and the
    labels of the input rows. *)
Lemma index_unstack_groupby i :
  i ∈ index (unstack 0 (groupby2_sum l)) ↔ ∃ c v, (i, c, v) ∈ l.
Proof.
  unfold unstack. rewrite index_build, elem_of_sort_uniq_Z, list_elem_of_fmap. split.
  - intros (e & -> & [Hobs _]%elem_of_groupby2_sum).
    apply observed_spec in Hobs as (v & Hin). eauto.
  - intros (c & v & Hin).
    exists (i, c, group_sum i c l). split; [done|].
    apply elem_of_groupby2_sum. simpl. split; [|done].
    apply observed_spec. eauto.
Qed.

Lemma columns_unstack_groupby c :
  c ∈ columns (unstack 0 (groupby2_sum l)) ↔ ∃ i v, (i, c, v) ∈ l.
Proof.
  unfold unstack, build. simpl. rewrite elem_of_sort_uniq_str, list_elem_of_fmap. split.
  - intros (e & -> & [Hobs _]%elem_of_groupby2_sum).
    apply observed_spec in Hobs as (v & Hin). eauto.
  - intros (i & v & Hin).
    exists (i, c, group_sum i c l). split; [done|].
    apply elem_of_groupby2_sum. simpl. split; [|done].
    apply observed_spec. eauto.
Qed.

End GroupBy.

(** ** Resampling and row-wise division *)

Section Divide.

Lemma zmin_le (l : list Z) lo x : zmin l = Some lo → x ∈ l → lo <= x.
Proof.
  destruct l as [|a l]; [discriminate|]. simpl. intros [= <-] Hin.
  apply elem_of_cons in Hin as [->|Hin].
  - induction l; simpl; lia.
  - induction l as [|b l IH]; [set_solver|]. simpl.
    apply elem_of_cons in Hin as [->|Hin]; [lia|]. specialize (IH Hin). lia.
Qed.

Lemma zmax_ge (l : list Z) hi x : zmax l = Some hi → x ∈ l → x <= hi.
Proof.
  destruct l as [|a l]; [discriminate|]. simpl. intros [= <-] Hin.
  apply elem_of_cons in Hin as [->|Hin].
  - induction l; simpl; lia.
  - induction l as [|b l IH]; [set_solver|]. simpl.
    apply elem_of_cons in Hin as [->|Hin]; [lia|]. specialize (IH Hin). lia.
Qed.

(** The resampled series has one entry per period of a range that
    covers every period of the input. *)
Lemma resample_sum_range (l : list (Z * float)) :
  ∃ R, resample_sum l = map (λ i, (i, period_sum l i)) R ∧ ∀ x, x ∈ map fst l → x ∈ R.
Proof.
  unfold resample_sum.
  destruct (zmin (map fst l)) as [lo|] eqn:Hlo.
  - destruct (zmax (map fst l)) as [hi|] eqn:Hhi.
    + exists (zrange lo hi). split; [reflexivity|].
      intros x Hx. apply elem_of_zrange. split; [eapply zmin_le|eapply zmax_ge]; eassumption.
    + destruct (map fst l); discriminate.
  - exists []. split; [reflexivity|]. destruct (map fst l); [done|discriminate].
Qed.

Lemma map_fst_pairs {V} (g : Z → V) (R : list Z) : map fst (map (λ i, (i, g i)) R) = R.
Proof. induction R as [|i R IH]; simpl; [reflexivity|]. f_equal. exact IH. Qed.

Lemma columns_divide df s : columns (divide df s) = columns df.
Proof. unfold divide. destruct (decide _); reflexivity. Qed.

(** Whichever way the indexes are aligned, a row of the quotient holds,
    column by column, the cell of the frame over the entry of the series
    at the row's label. *)
Lemma divide_rows idx cols f (R : list Z) (tot : Z → float) i row :
  let df := build idx cols f in
  let s := map (λ j, (j, tot j)) R in
  (i, row) ∈ rows (divide df s) →
  row = map (λ c, Float.div (default NaN (loc df i c)) (default NaN (lookup_label i s))) cols.
Proof.
  intros df s. unfold divide.
  destruct (decide (index df = map fst s)) as [Heq|Hne]; simpl.
  - subst df s. rewrite index_build, map_fst_pairs in Heq. subst R.
    unfold build at 1. simpl. rewrite zip_with_map_same. simpl.
    intros (j & [= -> ->] & Hj)%list_elem_of_fmap.
    rewrite <- list_fmap_compose. apply list_fmap_ext. intros k c Hc. simpl.
    fold (build idx cols f).
    rewrite loc_build by (eapply list_elem_of_lookup_2; eassumption).
    rewrite (lookup_label_map tot).
    rewrite bool_decide_eq_true_2 by done. reflexivity.
  - intros (j & [= -> ->] & Hj)%list_elem_of_fmap. reflexivity.
Qed.

Lemma rows_map_cells g df i row :
  (i, row) ∈ rows (map_cells g df) ↔ ∃ row0, (i, row0) ∈ rows df ∧ row = map g row0.
Proof.
  unfold map_cells. simpl. rewrite list_elem_of_fmap. split.
  - intros ([j r] & [= -> ->] & Hin). eauto.
  - intros (row0 & Hin & ->). exists (i, row0). done.
Qed.

End Divide.

(** ** The US quarterly tables *)

Section Quarterly.
Variable df_filtered : list auction.

Let groups : list (Z * string * float) :=
  map (λ r, (quarter (issue_date r), maturity_bin r, total_accepted r)) df_filtered.
Let totals : list (Z * float) :=
  map (λ r, (quarter (issue_date r), total_accepted r)) df_filtered.

Lemma quarterly_mix_nominal_build :
  quarterly_mix_nominal df_filtered =
    build (index (quarterly_mix_nominal df_filtered))
          (columns (quarterly_mix_nominal df_filtered))
          (λ i c, group_sum i c groups).
Proof.
  unfold quarterly_mix_nominal, unstack. rewrite index_build. simpl.
  apply build_ext. intros i c _ _. apply unstack_cell.
Qed.

Lemma columns_quarterly_mix_nominal c :
  c ∈ columns (quarterly_mix_nominal df_filtered) ↔ ∃ r, r ∈ df_filtered ∧ maturity_bin r = c.
Proof.
  unfold quarterly_mix_nominal. rewrite columns_unstack_groupby. split.
  - intros (i & v & (r & [= -> -> ->] & Hr)%list_elem_of_fmap). eauto.
  - intros (r & Hr & <-). eexists _, _. apply list_elem_of_fmap. exists r. done.
Qed.

Lemma index_quarterly_mix_nominal i :
  i ∈ index (quarterly_mix_nominal df_filtered) ↔
    ∃ r, r ∈ df_filtered ∧ quarter (issue_date r) = i.
Proof.
  unfold quarterly_mix_nominal. rewrite index_unstack_groupby. split.
  - intros (c & v & (r & [= -> -> ->] & Hr)%list_elem_of_fmap). eauto.
  - intros (r & Hr & <-). eexists _, _. apply list_elem_of_fmap. exists r. done.
Qed.

Lemma columns_quarterly_mix_pct :
  columns (quarterly_mix_pct df_filtered) = columns (quarterly_mix_nominal df_filtered).
Proof. unfold quarterly_mix_pct. simpl. apply columns_divide. Qed.

(** Every row of the percentage table, cell by cell. *)
Lemma quarterly_mix_pct_rows i row :
  (i, row) ∈ rows (quarterly_mix_pct df_filtered) →
  row = map (λ c, Float.mul
                    (fillna 0 (Float.div
                       (default NaN (loc (quarterly_mix_nominal df_filtered) i c))
                       (default NaN (lookup_label i (quarterly_issuance df_filtered)))))
                    (of_Z 100))
            (columns (quarterly_mix_nominal df_filtered)).
Proof.
  unfold quarterly_mix_pct.
  intros (row1 & (row0 & Hin & ->)%rows_map_cells & ->)%rows_map_cells.
  unfold quarterly_issuance in *. fold totals in Hin |- *.
  destruct (resample_sum_range totals) as (R & HR & _).
  rewrite HR in Hin |- *. rewrite quarterly_mix_nominal_build in Hin.
  apply divide_rows in Hin. rewrite <- quarterly_mix_nominal_build in Hin.
  rewrite Hin, <- !list_fmap_compose. reflexivity.
Qed.

(** Every period of the percentage table has an entry in the series of
    period totals. *)
Lemma quarterly_mix_pct_total i row :
  (i, row) ∈ rows (quarterly_mix_pct df_filtered) →
  lookup_label i (quarterly_issuance df_filtered) = Some (period_sum totals i).
Proof.
  unfold quarterly_mix_pct.
  intros (row1 & (row0 & Hin & ->)%rows_map_cells & ->)%rows_map_cells.
  unfold quarterly_issuance in *. fold totals in Hin |- *.
  destruct (resample_sum_range totals) as (R & HR & Hcover).
  rewrite HR in Hin |- *. rewrite (lookup_label_map (period_sum totals)).
  rewrite bool_decide_eq_true_2; [reflexivity|].
  assert (∀ j, j ∈ index (quarterly_mix_nominal df_filtered) → j ∈ R) as Hsub.
  { intros j (r & Hr & <-)%index_quarterly_mix_nominal.
    apply Hcover. subst totals. rewrite <- list_fmap_compose.
    apply list_elem_of_fmap. exists r. done. }
  unfold divide in Hin. destruct (decide _) as [Heq|Hne].
  - simpl in Hin. apply elem_of_zip_with in Hin as (r & e & [= -> _] & Hr & _).
    apply Hsub. apply list_elem_of_fmap. exists r. done.
  - apply list_elem_of_fmap in Hin as (j & [= -> _] & Hj).
    apply elem_of_sort_uniq_Z, elem_of_app in Hj as [Hj|Hj]; [auto|].
    rewrite map_fst_pairs in Hj. exact Hj.
Qed.

End Quarterly.

(** ** Sums of finite amounts *)

Section Sums.

Lemma sum_cons_Fin (q : Q) (l : list float) :
  Float.sum (Fin q :: l) = Float.add (Fin q) (Float.sum l).
Proof. unfold Float.sum. rewrite filter_cons_True by done. reflexivity. Qed.

Lemma sum_Fin (l : list float) :
  Forall is_finite l → Float.sum l = Fin (sumQ (map to_Q l)).
Proof.
  induction 1 as [|a l Ha Hl IH]; [reflexivity|].
  destruct a as [q| | |]; try contradiction.
  rewrite sum_cons_Fin, IH. reflexivity.
Qed.

Lemma nonneg_finite a : nonneg a → is_finite a.
Proof. destruct a; simpl; tauto. Qed.

End Sums.

(** ** Bucket amounts and period totals of non-negative records *)

Lemma bucket_Q_cons r l i c :
  bucket_Q (r :: l) i c =
    if Z.eqb (quarter (issue_date r)) i && String.eqb (maturity_bin r) c
    then (to_Q (total_accepted r) + bucket_Q l i c)%Q else bucket_Q l i c.
Proof.
  unfold bucket_Q.
  destruct (Z.eqb (quarter (issue_date r)) i && String.eqb (maturity_bin r) c) eqn:Hb.
  - rewrite filter_cons_True by exact Hb. reflexivity.
  - rewrite filter_cons_False by (rewrite Hb; discriminate). reflexivity.
Qed.

Lemma total_Q_cons r l i :
  total_Q (r :: l) i =
    if Z.eqb (quarter (issue_date r)) i
    then (to_Q (total_accepted r) + total_Q l i)%Q else total_Q l i.
Proof.
  unfold total_Q. destruct (Z.eqb (quarter (issue_date r)) i) eqn:Hb.
  - rewrite filter_cons_True by exact Hb. reflexivity.
  - rewrite filter_cons_False by (rewrite Hb; discriminate). reflexivity.
Qed.

Lemma nonneg_to_Q a : nonneg a → (0 <= to_Q a)%Q.
Proof. destruct a; simpl; tauto. Qed.

Lemma bucket_Q_nonneg df i c :
  Forall (λ r, nonneg (total_accepted r)) df → (0 <= bucket_Q df i c)%Q.
Proof.
  induction 1 as [|r l Hr Hl IH]; [apply Qle_refl|].
  rewrite bucket_Q_cons. apply nonneg_to_Q in Hr.
  destruct (_ && _); [lra|exact IH].
Qed.

Lemma bucket_Q_le_total df i c :
  Forall (λ r, nonneg (total_accepted r)) df → (bucket_Q df i c <= total_Q df i)%Q.
Proof.
  induction 1 as [|r l Hr Hl IH]; [apply Qle_refl|].
  rewrite bucket_Q_cons, total_Q_cons. apply nonneg_to_Q in Hr.
  destruct (Z.eqb (quarter (issue_date r)) i), (String.eqb (maturity_bin r) c); simpl; lra.
Qed.

Section Amounts.
Variable df : list auction.
Hypothesis amounts_nonneg : Forall (λ r, nonneg (total_accepted r)) df.

Lemma filter_groups i c :
  map snd (filter (λ e, Z.eqb e.1.1 i && String.eqb e.1.2 c = true)
             (map (λ r, (quarter (issue_date r), maturity_bin r, total_accepted r)) df)) =
  map total_accepted
      (filter (λ r, Z.eqb (quarter (issue_date r)) i && String.eqb (maturity_bin r) c = true) df).
Proof.
  clear amounts_nonneg.
  induction df as [|r l IH]; [reflexivity|]. simpl.
  destruct (Z.eqb (quarter (issue_date r)) i && String.eqb (maturity_bin r) c) eqn:Hb.
  - rewrite !filter_cons_True by (simpl; exact Hb). simpl. f_equal. exact IH.
  - rewrite !filter_cons_False by (simpl; rewrite Hb; discriminate). exact IH.
Qed.

Lemma filter_totals i :
  map snd (filter (λ e, Z.eqb e.1 i = true)
             (map (λ r, (quarter (issue_date r), total_accepted r)) df)) =
  map total_accepted (filter (λ r, Z.eqb (quarter (issue_date r)) i = true) df).
Proof.
  clear amounts_nonneg.
  induction df as [|r l IH]; [reflexivity|]. simpl.
  destruct (Z.eqb (quarter (issue_date r)) i) eqn:Hb.
  - rewrite !filter_cons_True by (simpl; exact Hb). simpl. f_equal. exact IH.
  - rewrite !filter_cons_False by (simpl; rewrite Hb; discriminate). exact IH.
Qed.

Lemma nonneg_filter (P : auction → Prop) `{∀ r, Decision (P r)} :
  Forall is_finite (map total_accepted (filter P df)).
Proof.
  apply Forall_fmap. apply Forall_forall. intros r [_ Hr]%list_elem_of_filter.
  rewrite Forall_forall in amounts_nonneg. apply nonneg_finite, amounts_nonneg. exact Hr.
Qed.

Lemma group_sum_bucket i c :
  group_sum i c (map (λ r, (quarter (issue_date r), maturity_bin r, total_accepted r)) df)
  = Fin (bucket_Q df i c).
Proof.
  unfold group_sum, bucket_Q. rewrite filter_groups, sum_Fin by apply nonneg_filter.
  rewrite <- list_fmap_compose. reflexivity.
Qed.

Lemma period_sum_total i :
  period_sum (map (λ r, (quarter (issue_date r), total_accepted r)) df) i
  = Fin (total_Q df i).
Proof.
  unfold period_sum, total_Q. rewrite filter_totals, sum_Fin by apply nonneg_filter.
  rewrite <- list_fmap_compose. reflexivity.
Qed.

End Amounts.

(** ** The percentage table *)

Lemma loc_quarterly_mix_nominal df_filtered i c :
  c ∈ columns (quarterly_mix_nominal df_filtered) →
  loc (quarterly_mix_nominal df_filtered) i c =
    if bool_decide (i ∈ index (quarterly_mix_nominal df_filtered))
    then Some (group_sum i c
                 (map (λ r, (quarter (issue_date r), maturity_bin r, total_accepted r))
                      df_filtered))
    else None.
Proof.
  unfold quarterly_mix_nominal, unstack. intros Hc.
  rewrite loc_build by exact Hc. rewrite index_build, unstack_cell. reflexivity.
Qed.

Lemma is_zero_true q : (q == 0)%Q → is_zero q = true.
Proof. intros Hq. apply Qeq_bool_iff. exact Hq. Qed.

(** C4. A period whose total of accepted amounts is zero gets 0 in
    every column of the percentage table: the table is computed by total
    functions, 0/0 is NaN, and [fillna(0)] replaces it (amounts finite
    and non-negative). *)
Theorem quarterly_mix_pct_zero_total (df_filtered : list auction) (q : Z)
    (row : list float) (t : float) :
  Forall (λ r, nonneg (total_accepted r)) df_filtered →
  (q, row) ∈ rows (quarterly_mix_pct df_filtered) →
  lookup_label q (quarterly_issuance df_filtered) = Some t →
  feq t (Fin 0) →
  length row = length (columns (quarterly_mix_pct df_filtered)) ∧
  Forall (λ v, feq v (Fin 0)) row.
Proof.
  intros Hnn Hrow Ht Hz.
  pose proof (quarterly_mix_pct_total _ _ _ Hrow) as Htot.
  rewrite Ht, period_sum_total in Htot by exact Hnn. injection Htot as ->.
  simpl in Hz.
  apply quarterly_mix_pct_rows in Hrow. rewrite Ht in Hrow. simpl in Hrow.
  rewrite columns_quarterly_mix_pct, Hrow. split; [apply length_fmap|].
  apply Forall_fmap, Forall_forall. intros c Hc. simpl.
  rewrite loc_quarterly_mix_nominal by exact Hc.
  destruct (bool_decide (q ∈ index (quarterly_mix_nominal df_filtered))); simpl.
  - rewrite group_sum_bucket by exact Hnn. simpl.
    rewrite is_zero_true by exact Hz.
    assert (bucket_Q df_filtered q c == 0)%Q as Hb.
    { pose proof (bucket_Q_nonneg df_filtered q c Hnn).
      pose proof (bucket_Q_le_total df_filtered q c Hnn). lra. }
    unfold signed_inf. rewrite is_zero_true by exact Hb. simpl. reflexivity.
  - reflexivity.
Qed.

(** C5. Whatever records the refresh job caches and whatever date window
    is requested, the columns of the quarterly tables are labels of the
    fixed seven-label set. *)
Theorem quarterly_columns_in_plot_order (records : list auction_json)
    (start_date end_date : date) :
  let df_filtered := filter_range start_date end_date (map prepare_row records) in
  columns (quarterly_mix_nominal df_filtered) ⊆ US_PLOT_ORDER ∧
  columns (quarterly_mix_pct df_filtered) ⊆ US_PLOT_ORDER.
Proof.
  intros df_filtered.
  assert (columns (quarterly_mix_nominal df_filtered) ⊆ US_PLOT_ORDER) as Hsub.
  { intros c (r & Hr & <-)%columns_quarterly_mix_nominal.
    apply list_elem_of_filter in Hr as [_ Hr].
    apply list_elem_of_fmap in Hr as (j & -> & _).
    apply assign_maturity_bin_label. }
  split; [exact Hsub|]. rewrite columns_quarterly_mix_pct. exact Hsub.
Qed.

Lemma sample_cache_nonneg : Forall (λ r, nonneg (total_accepted r)) sample_cache.
Proof. repeat constructor; simpl; discriminate. Qed.

Lemma quarterly_mix_pct_zero_total_witness :
  (8097, [Fin 0; Fin 0]) ∈ rows (quarterly_mix_pct sample_cache) ∧
  lookup_label 8097 (quarterly_issuance sample_cache) = Some (Fin 0) ∧
  Forall (λ v, feq v (Fin 0)) [Fin 0; Fin 0].
Proof.
  assert ((8097, [Fin 0; Fin 0]) ∈ rows (quarterly_mix_pct sample_cache)) as Hrow
    by (vm_compute; right; left).
  assert (lookup_label 8097 (quarterly_issuance sample_cache) = Some (Fin 0)) as Ht
    by (vm_compute; reflexivity).
  split; [exact Hrow|]. split; [exact Ht|].
  exact (proj2 (quarterly_mix_pct_zero_total sample_cache 8097 _ _
                  sample_cache_nonneg Hrow Ht (Qeq_refl 0))).
Defined.

(** ** The US refresh *)

Section UsRefresh.
Variable E : env.

Lemma fetch_pages_fails url pages acc :
  (∃ p msg, p ∈ pages ∧ requests_get E (url p) = HttpFailed msg) →
  ∃ msg, fetch_pages E url pages acc = Raise (RequestException msg).
Proof.
  revert acc. induction pages as [|p' pages IH]; intros acc (p & msg & Hin & Hp).
  - set_solver.
  - simpl. destruct (requests_get E (url p')) as [data tp|msg'] eqn:Hp'; [|eauto].
    apply IH. exists p, msg. split; [|exact Hp].
    apply elem_of_cons in Hin as [->|Hin]; [congruence|exact Hin].
Qed.

Lemma fetch_us_data_fails w :
  us_fetch_fails E →
  ∃ msg, fetch_us_data E (US_BASE_URL E) US_AUCTION_ENDPOINT
           ("?filter=issue_date:gte:" ++ pretty 2000 ++ "-01-01") w
         = (Return None,
            {| files := files w;
               stdout := app (stdout w) [
                 "🚀 Fetching live US data from " ++ US_AUCTION_ENDPOINT
                   ++ ("?filter=issue_date:gte:" ++ pretty 2000 ++ "-01-01") ++ "...";
                 nl ++ "❌ CRITICAL: Failed to fetch US data from " ++ US_AUCTION_ENDPOINT
                   ++ ": " ++ msg] |}).
Proof.
  unfold us_fetch_fails, daily_url, fetch_us_data.
  set (url := page_url _ _ _ 100).
  intros [(msg & H1) | (data & tp & p & msg & H1 & Hp & Hfail)].
  - exists msg. unfold mbind, M_bind, bind, try_except, print, raise. simpl.
    rewrite H1. simpl. rewrite <- app_assoc. reflexivity.
  - destruct (fetch_pages_fails url (zrange 2 (default 1 tp)) data) as (msg' & Hraise).
    { eauto. }
    exists msg'. unfold mbind, M_bind, bind, try_except, print, raise. simpl.
    rewrite H1. simpl. rewrite Hraise. simpl. rewrite <- app_assoc. reflexivity.
Qed.

End UsRefresh.

(** ** The Euro refresh *)

Section EuroRefresh.
Variable E : env.

Lemma prints_print line : prints (print line) tt.
Proof. intros w. eexists. reflexivity. Qed.

Lemma prints_ret {A} (a : A) : prints (mret a) a.
Proof. intros w. exists []. simpl. rewrite app_nil_r. destruct w; reflexivity. Qed.

Lemma prints_bind {A B} (m : M A) (k : A → M B) a b :
  prints m a → prints (k a) b → prints (m ≫= k) b.
Proof.
  intros Hm Hk w. destruct (Hm w) as (out1 & H1).
  destruct (Hk {| files := files w; stdout := app (stdout w) out1 |}) as (out2 & H2).
  exists (app out1 out2). unfold mbind, M_bind, bind. rewrite H1, H2. simpl.
  rewrite app_assoc. reflexivity.
Qed.

Lemma fetch_tenor_prints code t frames :
  prints (fetch_tenor E code t frames)
         (app frames (option_list (tenor_result E code t))).
Proof.
  destruct t as [tenor_name tenor_code]. unfold fetch_tenor, tenor_result. simpl.
  eapply prints_bind; [apply prints_print|].
  intros w. unfold try_except.
  destruct (ecb_data E EURO_FLOW_ID (tenor_key code tenor_code)) as [series|msg]; simpl.
  - exists []. rewrite app_nil_r. destruct w; reflexivity.
  - eexists. unfold mbind, M_bind, bind, print. simpl. rewrite app_nil_r. reflexivity.
Qed.

Lemma fetch_tenors_prints code tenors frames :
  prints (fetch_tenors E code tenors frames)
         (app frames (omap (tenor_result E code) tenors)).
Proof.
  revert frames. induction tenors as [|t tenors IH]; intros frames; simpl.
  - rewrite app_nil_r. apply prints_ret.
  - eapply prints_bind; [apply fetch_tenor_prints|].
    specialize (IH (app frames (option_list (tenor_result E code t)))).
    destruct (tenor_result E code t) as [f|]; simpl in IH |- *.
    + rewrite <- app_assoc in IH. exact IH.
    + rewrite !app_nil_r in IH. rewrite app_nil_r. exact IH.
Qed.

Lemma get_and_process_euro_data_prints code name :
  dict_get update_data.EURO_COUNTRIES code = Some name →
  prints (get_and_process_euro_data E code)
         (match succeeded E code with
          | [] => None
          | frames => Some (consolidate frames)
          end).
Proof.
  intros Hname. unfold get_and_process_euro_data, dict_item. rewrite Hname.
  eapply prints_bind; [apply prints_ret|].
  eapply prints_bind; [apply prints_print|].
  eapply prints_bind; [apply (fetch_tenors_prints code EURO_TENORS [])|].
  cbn [app]. fold (succeeded E code).
  destruct (succeeded E code); [apply prints_ret|].
  eapply prints_bind; [apply prints_print|apply prints_ret].
Qed.

(** The columns of the consolidated table are names of fetched series. *)
Lemma columns_consolidate frames c :
  c ∈ columns (consolidate frames) → c ∈ map fst frames.
Proof.
  unfold consolidate. rewrite columns_unstack_groupby.
  intros (i & v & (r & [= _ -> _] & Hr)%list_elem_of_fmap).
  apply list_elem_of_filter in Hr as [_ Hr]. unfold concat_melt in Hr.
  apply list_elem_of_bind in Hr as (f & Hr & Hf).
  apply list_elem_of_bind in Hr as (k & Hr & _).
  apply list_elem_of_singleton in Hr as ->. simpl.
  apply list_elem_of_fmap. exists f. done.
Qed.

(** A fetched series with an observation that is not NaN gets a column. *)
Lemma consolidate_has_column frames f k :
  f ∈ frames → k ∈ map fst f.2 → isna (series_get k f.2) = false →
  f.1 ∈ columns (consolidate frames).
Proof.
  intros Hf Hk Hv. unfold consolidate. apply columns_unstack_groupby.
  exists (month_period k.2), (series_get k f.2).
  apply list_elem_of_fmap. exists (k, f.1, series_get k f.2). split; [done|].
  apply list_elem_of_filter. split; [exact Hv|].
  unfold concat_melt. apply list_elem_of_bind. exists f. split; [|exact Hf].
  apply list_elem_of_bind. exists k. split; [set_solver|].
  apply elem_of_remove_dups, list_elem_of_bind. exists f. done.
Qed.

End EuroRefresh.

Section EuroCache.
Variable E : env.

Lemma prints_writes {A} (m : M A) a : prints m a → writes m a id.
Proof. intros H w. exact (H w). Qed.

Lemma writes_bind {A B} (m : M A) (k : A → M B) a b g h f :
  writes m a g → writes (k a) b h → (∀ fs, f fs = h (g fs)) → writes (m ≫= k) b f.
Proof.
  intros Hm Hk Hf w. destruct (Hm w) as (out1 & H1).
  destruct (Hk {| files := g (files w); stdout := app (stdout w) out1 |}) as (out2 & H2).
  exists (app out1 out2). unfold mbind, M_bind, bind. rewrite H1, H2. simpl.
  rewrite app_assoc, Hf. reflexivity.
Qed.

Lemma to_pickle_writes p path : writes (to_pickle p path) tt (λ fs, <[path := p]> fs).
Proof. intros w. exists []. unfold to_pickle. rewrite app_nil_r. reflexivity. Qed.

(** One turn of the loop of [update_euro_cache]. *)
Lemma euro_country_writes code name :
  dict_get update_data.EURO_COUNTRIES code = Some name →
  writes (monthly_summary ← get_and_process_euro_data E code;
          match monthly_summary with
          | Some df =>
              to_pickle (PSummary df) ("euro_data_" ++ code ++ ".pkl") ;;
              print ("✅ Euro data cache for " ++ code ++ " updated and saved to "
                     ++ ("euro_data_" ++ code ++ ".pkl"))
          | None => mret tt
          end)
         tt (euro_write E code).
Proof.
  intros Hname.
  eapply (writes_bind _ _ _ _ id (euro_write E code));
    [apply prints_writes, (get_and_process_euro_data_prints E code name Hname)| |reflexivity].
  unfold euro_write. destruct (succeeded E code) as [|f frames].
  - apply prints_writes, prints_ret.
  - eapply (writes_bind _ _ _ _ _ id);
      [apply to_pickle_writes|apply prints_writes, prints_print|reflexivity].
Qed.

Lemma update_euro_cache_writes :
  writes (update_euro_cache E) tt (euro_write E "FR" ∘ euro_write E "IT" ∘ euro_write E "DE").
Proof.
  unfold update_euro_cache. simpl for_each.
  eapply (writes_bind _ _ _ _ id); [apply prints_writes, prints_print| |reflexivity].
  eapply (writes_bind _ _ _ _ (euro_write E "DE") (euro_write E "FR" ∘ euro_write E "IT"));
    [by apply (euro_country_writes "DE" "Germany")| |reflexivity].
  eapply (writes_bind _ _ _ _ (euro_write E "IT") (euro_write E "FR"));
    [by apply (euro_country_writes "IT" "Italy")| |reflexivity].
  eapply (writes_bind _ _ _ _ (euro_write E "FR") id);
    [by apply (euro_country_writes "FR" "France")| |reflexivity].
  apply prints_writes, prints_ret.
Qed.

Lemma euro_write_other code code' fs :
  euro_cache_file code ≠ euro_cache_file code' →
  euro_write E code' fs !! euro_cache_file code = fs !! euro_cache_file code.
Proof.
  intros Hne. unfold euro_write. destruct (succeeded E code'); [reflexivity|].
  apply lookup_insert_ne. congruence.
Qed.

Lemma euro_write_same code fs :
  euro_write E code fs !! euro_cache_file code =
    match succeeded E code with
    | [] => fs !! euro_cache_file code
    | frames => Some (PSummary (consolidate frames))
    end.
Proof.
  unfold euro_write. destruct (succeeded E code); [reflexivity|]. apply lookup_insert_eq.
Qed.

Lemma euro_country_code code name :
  dict_get update_data.EURO_COUNTRIES code = Some name →
  code = "DE" ∨ code = "IT" ∨ code = "FR".
Proof.
  unfold update_data.EURO_COUNTRIES. simpl.
  destruct (String.eqb_spec code "DE"); [auto|].
  destruct (String.eqb_spec code "IT"); [auto|].
  destruct (String.eqb_spec code "FR"); [auto|discriminate].
Qed.

(** After the Euro refresh, the cache file of a country holds the
    consolidation of its fetched tenors, or is as before when none was
    fetched. *)
Lemma update_euro_cache_file w code name :
  dict_get update_data.EURO_COUNTRIES code = Some name →
  (update_euro_cache E w).1 = Return tt ∧
  files (update_euro_cache E w).2 !! euro_cache_file code =
    match succeeded E code with
    | [] => files w !! euro_cache_file code
    | frames => Some (PSummary (consolidate frames))
    end.
Proof.
  intros Hname. destruct (update_euro_cache_writes w) as (out & ->). simpl.
  split; [reflexivity|].
  destruct (euro_country_code code name Hname) as [-> | [-> | ->]].
  - rewrite !euro_write_other by (vm_compute; discriminate). apply euro_write_same.
  - rewrite euro_write_other by (vm_compute; discriminate).
    rewrite euro_write_same.
    destruct (succeeded E "IT"); [|reflexivity].
    apply euro_write_other. vm_compute. discriminate.
  - rewrite euro_write_same.
    destruct (succeeded E "FR"); [|reflexivity].
    rewrite !euro_write_other by (vm_compute; discriminate). reflexivity.
Qed.

Lemma elem_of_succeeded code f :
  f ∈ succeeded E code ↔
    ∃ t, t ∈ EURO_TENORS ∧ f.1 = t.1 ∧
         ecb_data E EURO_FLOW_ID (tenor_key code t.2) = EcbOk f.2.
Proof.
  unfold succeeded. rewrite list_elem_of_omap. unfold tenor_result. split.
  - intros (t & Ht & Hres). exists t. split; [exact Ht|].
    destruct (ecb_data E EURO_FLOW_ID (tenor_key code t.2)); [|discriminate].
    injection Hres as <-. done.
  - intros (t & Ht & Hname & Hok). exists t. split; [exact Ht|].
    rewrite Hok, <- Hname. destruct f; reflexivity.
Qed.

End EuroCache.

Lemma euro_write_auctions (E : env) code fs :
  euro_write E code fs !! update_data.US_AUCTION_CACHE_FILE
  = fs !! update_data.US_AUCTION_CACHE_FILE.
Proof.
  unfold euro_write. destruct (succeeded E code); [reflexivity|].
  apply lookup_insert_ne. discriminate.
Qed.

(** C6, as the code has it.  When the upstream fetch fails (on the first
    page or on any later one) the US refresh writes no file, prints the
    failure and returns normally.  Whatever the command line, the
    process then exits with status 0 and the US cache file is as it was
    before the run. *)
Theorem us_refresh_failure_keeps_cache (E : env) (w : world) :
  us_fetch_fails E →
  (∃ msg, update_us_cache E 2000 w =
            (Return tt, {| files := files w; stdout := app (stdout w) (us_failure_log msg) |})) ∧
  (∀ argv, (run E argv w).1 = 0 ∧
           files (run E argv w).2 !! update_data.US_AUCTION_CACHE_FILE
             = files w !! update_data.US_AUCTION_CACHE_FILE).
Proof.
  intros Hfail.
  assert (∀ w0, ∃ msg, update_us_cache E 2000 w0 =
            (Return tt, {| files := files w0;
                           stdout := app (stdout w0) (us_failure_log msg) |})) as Hus.
  { intros w0. unfold update_us_cache.
    destruct (fetch_us_data_fails E
                {| files := files w0;
                   stdout := app (stdout w0) ["--- Starting US Data Update ---"] |} Hfail)
      as (msg & Hfetch).
    exists msg. unfold mbind, M_bind, bind at 1 2. unfold print at 1.
    rewrite Hfetch. unfold print. simpl. rewrite <- !app_assoc. reflexivity. }
  split; [apply Hus|].
  intros argv. unfold run, main.
  destruct (bool_decide (argv !! 1%nat = Some "daily")).
  { destruct (Hus w) as (msg & ->). split; reflexivity. }
  destruct (bool_decide (argv !! 1%nat = Some "monthly")).
  { destruct (update_euro_cache_writes E w) as (out & ->). simpl. split; [reflexivity|].
    rewrite !euro_write_auctions. reflexivity. }
  assert (writes (print "Updating all data sources..." ;;
                  update_us_cache E 2000 ;; update_euro_cache E) tt
                 (euro_write E "FR" ∘ euro_write E "IT" ∘ euro_write E "DE")) as Hall.
  { eapply (writes_bind _ _ _ _ id); [apply prints_writes, prints_print| |reflexivity].
    eapply (writes_bind _ _ _ _ id); [|apply update_euro_cache_writes|reflexivity].
    intros w0. destruct (Hus w0) as (msg & ->). eexists. reflexivity. }
  destruct (Hall w) as (out & ->). simpl. split; [reflexivity|].
  rewrite !euro_write_auctions. reflexivity.
Qed.

Lemma us_refresh_failure_keeps_cache_witness :
  us_fetch_fails env_us_down ∧
  (run env_us_down ["update_data.py"; "daily"] (mkWorld sample_files [])).1 = 0 ∧
  files (run env_us_down ["update_data.py"; "daily"] (mkWorld sample_files [])).2
    !! update_data.US_AUCTION_CACHE_FILE = Some (PAuctions sample_cache).
Proof.
  assert (us_fetch_fails env_us_down) as Hfail by (left; eexists; reflexivity).
  split; [exact Hfail|].
  exact (proj2 (us_refresh_failure_keeps_cache env_us_down (mkWorld sample_files []) Hfail)
               ["update_data.py"; "daily"]).
Defined.

(** C6, as the claim has it: a run whose fetch fails would have to exit
    with a non-zero status.  With the API down the daily refresh exits
    with status 0. *)
Lemma us_refresh_failure_exit_status :
  us_fetch_fails env_us_down ∧
  ¬ (run env_us_down ["update_data.py"; "daily"] (mkWorld sample_files [])).1 ≠ 0.
Proof.
  split.
  - left. eexists. reflexivity.
  - intros Hne. apply Hne. vm_compute. reflexivity.
Qed.

(** C7. In the refresh of a Euro country every tenor is requested and
    the series of exactly those whose request succeeds are collected, a
    failure being skipped.  If every request fails the country's cache
    file is left as it was.  Otherwise the file is written, each of its
    columns is a tenor whose request succeeded, and every fetched tenor
    with an observation that is not NaN has its column. *)
Theorem euro_refresh_tenor_failures (E : env) (w : world) (code name : string) :
  dict_get update_data.EURO_COUNTRIES code = Some name →
  let fetched t := ∃ series, ecb_data E EURO_FLOW_ID (tenor_key code t.2) = EcbOk series in
  let w' := (update_euro_cache E w).2 in
  (fetch_tenors E code EURO_TENORS [] w).1 = Return (succeeded E code) ∧
  (∀ t series, t ∈ EURO_TENORS →
     ecb_data E EURO_FLOW_ID (tenor_key code t.2) = EcbOk series →
     (t.1, series) ∈ succeeded E code) ∧
  (update_euro_cache E w).1 = Return tt ∧
  ((∀ t, t ∈ EURO_TENORS → ¬ fetched t) →
   files w' !! euro_cache_file code = files w !! euro_cache_file code) ∧
  ((∃ t, t ∈ EURO_TENORS ∧ fetched t) →
   ∃ df, files w' !! euro_cache_file code = Some (PSummary df) ∧
         (∀ c, c ∈ columns df → ∃ t, t ∈ EURO_TENORS ∧ t.1 = c ∧ fetched t) ∧
         (∀ t series k, t ∈ EURO_TENORS →
            ecb_data E EURO_FLOW_ID (tenor_key code t.2) = EcbOk series →
            k ∈ map fst series → isna (series_get k series) = false →
            t.1 ∈ columns df)).
Proof.
  intros Hname fetched w'.
  assert (∀ t series, t ∈ EURO_TENORS →
            ecb_data E EURO_FLOW_ID (tenor_key code t.2) = EcbOk series →
            (t.1, series) ∈ succeeded E code) as Hin.
  { intros t series Ht Hok. apply elem_of_succeeded. exists t. done. }
  destruct (update_euro_cache_file E w code name Hname) as [Hret Hfile].
  split; [|split; [exact Hin|split; [exact Hret|split]]].
  - destruct (fetch_tenors_prints E code EURO_TENORS [] w) as (out & ->). reflexivity.
  - intros Hnone. subst w'. rewrite Hfile.
    destruct (succeeded E code) as [|f frames] eqn:Hs; [reflexivity|].
    exfalso. assert (f ∈ succeeded E code) as Hf by (rewrite Hs; left).
    apply elem_of_succeeded in Hf as (t & Ht & _ & Hok).
    apply (Hnone t Ht). exists f.2. exact Hok.
  - intros (t & Ht & series & Hok). subst w'. rewrite Hfile.
    pose proof (Hin t series Ht Hok) as Hts.
    exists (consolidate (succeeded E code)).
    split; [destruct (succeeded E code); [set_solver|reflexivity]|]. split.
    + intros c (f & -> & Hf)%columns_consolidate%list_elem_of_fmap.
      apply elem_of_succeeded in Hf as (t' & Ht' & Hn & Hok').
      exists t'. split; [exact Ht'|]. split; [done|]. exists f.2. exact Hok'.
    + intros t' series' k Ht' Hok' Hk Hv.
      apply (consolidate_has_column (succeeded E code) (t'.1, series') k); auto.
Qed.

Lemma euro_refresh_tenor_failures_witness :
  dict_get update_data.EURO_COUNTRIES "DE" = Some "Germany" ∧
  (update_euro_cache env_us_down (mkWorld sample_files [])).1 = Return tt.
Proof.
  split; [reflexivity|].
  exact (proj1 (proj2 (proj2
    (euro_refresh_tenor_failures env_us_down (mkWorld sample_files []) "DE" "Germany"
       eq_refl)))).
Defined.

Example euro_refresh_one_tenor :
  columns <$> (match files (update_euro_cache env_us_down (mkWorld ∅ [])).2
                     !! euro_cache_file "DE" with
               | Some (PSummary df) => Some df
               | _ => None
               end) = Some ["Up to 1Y"] ∧
  files (update_euro_cache env_us_down (mkWorld ∅ [])).2 !! euro_cache_file "IT" = None.
Proof. split; vm_compute; reflexivity. Qed.

(** ** The web handler and the cache files *)

Section Handler.

Lemma read_pickle_missing path w :
  files w !! path = None → read_pickle path w = (Raise (FileNotFoundError path), w).
Proof. intros H. unfold read_pickle. rewrite H. reflexivity. Qed.

Lemma read_pickle_present path p w :
  files w !! path = Some p → read_pickle path w = (Return p, w).
Proof. intros H. unfold read_pickle. rewrite H. reflexivity. Qed.

(** The start-up load never raises: it returns the pickled table, or a
    table without rows when the file is missing. *)
Lemma load_US_DASHBOARD_DATA_prints w :
  ∃ out, load_US_DASHBOARD_DATA w =
    (Return (default (PAuctions []) (files w !! app.US_AUCTION_CACHE_FILE)),
     {| files := files w; stdout := app (stdout w) out |}).
Proof.
  unfold load_US_DASHBOARD_DATA, try_except, mbind, M_bind, bind.
  destruct (files w !! app.US_AUCTION_CACHE_FILE) as [p|] eqn:Hf.
  - rewrite (read_pickle_present _ p) by exact Hf. eexists. reflexivity.
  - rewrite read_pickle_missing by exact Hf. eexists. reflexivity.
Qed.

Lemma dashboard_us_empty data today args w :
  default "US" (arg_country args) = "US" → pickle_empty data = true →
  dashboard data today args w =
    (Return {| title := "U.S. Treasury Debt Issuance Dashboard";
               chart_html := US_EMPTY; nominal_chart_html := US_EMPTY;
               future_table_html := []; selected_country := "US";
               start_date := None; end_date := None |}, w).
Proof.
  intros Hc He. unfold dashboard. rewrite Hc, He. reflexivity.
Qed.

Lemma dashboard_euro_missing data today args w code name :
  default "US" (arg_country args) = code → code ≠ "US" →
  dict_get app.EURO_COUNTRIES code = Some name →
  files w !! euro_cache_file code = None →
  ∃ out, dashboard data today args w =
    (Return {| title := name ++ " Debt Issuance Dashboard";
               chart_html := euro_missing name; nominal_chart_html := euro_missing name;
               future_table_html := []; selected_country := code;
               start_date := None; end_date := None |},
     {| files := files w; stdout := app (stdout w) out |}).
Proof.
  intros Hc Hne Hname Hf. unfold dashboard. rewrite Hc.
  destruct (String.eqb_spec code "US") as [|_]; [contradiction|].
  rewrite Hname. unfold try_except, mbind, M_bind, bind.
  fold (euro_cache_file code). rewrite read_pickle_missing by exact Hf.
  eexists. reflexivity.
Qed.

End Handler.

(** ** The refresh job deletes no file *)

Section NeverDeletes.
Variable E : env.

Lemma never_deletes_ret {A} (a : A) : never_deletes (mret a).
Proof. intros w path H. exact H. Qed.

Lemma never_deletes_raise {A} e : never_deletes (@raise A e).
Proof. intros w path H. exact H. Qed.

Lemma never_deletes_print line : never_deletes (print line).
Proof. intros w path H. exact H. Qed.

Lemma never_deletes_to_pickle p path : never_deletes (to_pickle p path).
Proof.
  intros w path' H. unfold to_pickle in H. simpl in H.
  apply lookup_insert_None in H as [H _]. exact H.
Qed.

Lemma never_deletes_bind {A B} (m : M A) (k : A → M B) :
  never_deletes m → (∀ a, never_deletes (k a)) → never_deletes (m ≫= k).
Proof.
  intros Hm Hk w path. unfold mbind, M_bind, bind.
  specialize (Hm w path). destruct (m w) as [[a|e] w']; simpl in *.
  - intros H. apply Hm. exact (Hk a w' path H).
  - exact Hm.
Qed.

Lemma never_deletes_try_except {A} (body : M A) handles handler :
  never_deletes body → (∀ e, never_deletes (handler e)) →
  never_deletes (try_except body handles handler).
Proof.
  intros Hb Hh w path. unfold try_except.
  specialize (Hb w path). destruct (body w) as [[a|e] w']; simpl in *; [exact Hb|].
  destruct (handles e); [|exact Hb].
  intros H. apply Hb. exact (Hh e w' path H).
Qed.

Lemma never_deletes_pure {A} (o : outcome A) : never_deletes (λ w, (o, w)).
Proof. intros w path H. exact H. Qed.

Ltac never_deletes_step :=
  first [ apply never_deletes_ret | apply never_deletes_raise | apply never_deletes_print
        | apply never_deletes_to_pickle | apply never_deletes_pure
        | apply never_deletes_bind; [|intros ?]
        | apply never_deletes_try_except; [|intros ?]
        | match goal with |- never_deletes (match ?x with _ => _ end) => destruct x end ].

Lemma never_deletes_fetch_tenors code tenors frames :
  never_deletes (fetch_tenors E code tenors frames).
Proof.
  revert frames. induction tenors as [|[tenor_name tenor_code] tenors IH]; intros frames; simpl.
  - apply never_deletes_ret.
  - apply never_deletes_bind; [|intros ?; apply IH].
    unfold fetch_tenor. repeat never_deletes_step.
Qed.

Lemma never_deletes_for_each {A} (xs : list A) body :
  (∀ x, never_deletes (body x)) → never_deletes (for_each xs body).
Proof.
  intros Hb. induction xs as [|x xs IH]; simpl; [apply never_deletes_ret|].
  apply never_deletes_bind; [apply Hb|intros _; exact IH].
Qed.

Lemma never_deletes_update_euro_cache : never_deletes (update_euro_cache E).
Proof.
  unfold update_euro_cache. apply never_deletes_bind; [apply never_deletes_print|intros _].
  apply never_deletes_for_each. intros code.
  apply never_deletes_bind; [|intros ?; repeat never_deletes_step].
  unfold get_and_process_euro_data, dict_item.
  apply never_deletes_bind; [repeat never_deletes_step|intros ?].
  apply never_deletes_bind; [apply never_deletes_print|intros _].
  apply never_deletes_bind; [apply never_deletes_fetch_tenors|intros ?].
  repeat never_deletes_step.
Qed.

Lemma never_deletes_update_us_cache start_year : never_deletes (update_us_cache E start_year).
Proof.
  unfold update_us_cache, fetch_us_data. repeat never_deletes_step.
Qed.

(** Whatever the upstream sources answer, a run of the refresh script
    leaves every file that existed in place. *)
Lemma refresh_never_deletes argv w path :
  files (run E argv w).2 !! path = None → files w !! path = None.
Proof.
  unfold run. destruct (main E argv w) as [o w'] eqn:Hmain. simpl.
  assert (never_deletes (main E argv)) as Hnd.
  { unfold main. repeat case_bool_decide.
    - apply never_deletes_update_us_cache.
    - apply never_deletes_update_euro_cache.
    - apply never_deletes_bind; [apply never_deletes_print|intros _].
      apply never_deletes_bind; [apply never_deletes_update_us_cache|intros _].
      apply never_deletes_update_euro_cache. }
  intros H. apply (Hnd w path). rewrite Hmain. exact H.
Qed.

End NeverDeletes.




(** Start-up and one request on the same files. *)
Lemma serve_missing_cache (today : date) (args : request) (w : world) (file : string) :
  cache_file (default "US" (arg_country args)) = Some file →
  files w !! file = None →
  ∃ p, (serve today args w).1 = Return p ∧
       chart_html p = placeholder (default "US" (arg_country args)) ∧
       files (serve today args w).2 = files w.
Proof.
  intros Hfile Hmiss. unfold serve, mbind, M_bind, bind.
  destruct (load_US_DASHBOARD_DATA_prints w) as (out1 & ->).
  unfold cache_file, placeholder in *.
  destruct (String.eqb_spec (default "US" (arg_country args)) "US") as [Hc|Hne].
  - injection Hfile as <-. rewrite Hmiss. simpl default.
    rewrite dashboard_us_empty by (exact Hc || reflexivity).
    eexists. repeat split.
  - destruct (dict_get app.EURO_COUNTRIES (default "US" (arg_country args)))
      as [name|] eqn:Hname; [|discriminate].
    injection Hfile as <-.
    destruct (dashboard_euro_missing
                (default (PAuctions []) (files w !! app.US_AUCTION_CACHE_FILE))
                today args {| files := files w; stdout := app (stdout w) out1 |}
                _ name eq_refl Hne Hname Hmiss) as (out2 & ->).
    eexists. repeat split.
Qed.

(** C9, as the code has it.  A saved table is what a later load returns.
    For a Euro country a missing file is signalled by FileNotFoundError,
    and the handler shows a message of its own, different from the one
    for a table without rows.  For the US the start-up load replaces a
    missing file by a table without rows (printing a warning), and the
    handler then sees what it sees for a cache without rows. *)
Theorem cache_load_contract (w : world) (today : date) (args : request)
    (code name : string) :
  dict_get app.EURO_COUNTRIES code = Some name →
  arg_country args = Some code →
  (∀ p path, (to_pickle p path ;; read_pickle path) w
             = (Return p, {| files := <[path := p]> (files w); stdout := stdout w |})) ∧
  (∀ p, files w !! app.US_AUCTION_CACHE_FILE = Some p →
        (load_US_DASHBOARD_DATA w).1 = Return p) ∧
  (files w !! app.US_AUCTION_CACHE_FILE = None →
        (load_US_DASHBOARD_DATA w).1 = Return (PAuctions [])) ∧
  (files w !! euro_cache_file code = None →
     (read_pickle (euro_cache_file code) w).1
       = Raise (FileNotFoundError (euro_cache_file code)) ∧
     ∃ p, (serve today args w).1 = Return p ∧ chart_html p = euro_missing name) ∧
  (∀ df, files w !! euro_cache_file code = Some (PSummary df) → empty df = true →
     (read_pickle (euro_cache_file code) w).1 = Return (PSummary df) ∧
     ∃ p, (serve today args w).1 = Return p ∧ chart_html p = NO_DATA) ∧
  euro_missing name ≠ NO_DATA.
Proof.
  intros Hname Hargs.
  assert (default "US" (arg_country args) = code) as Hc by (rewrite Hargs; reflexivity).
  assert (code ≠ "US") as Hne by (intros ->; discriminate).
  split; [|split; [|split; [|split; [|split]]]].
  - intros p path. unfold to_pickle, read_pickle, mbind, M_bind, bind. simpl.
    rewrite lookup_insert_eq. reflexivity.
  - intros p Hp. destruct (load_US_DASHBOARD_DATA_prints w) as (out & ->).
    rewrite Hp. reflexivity.
  - intros Hmiss. destruct (load_US_DASHBOARD_DATA_prints w) as (out & ->).
    rewrite Hmiss. reflexivity.
  - intros Hmiss. split; [rewrite read_pickle_missing by exact Hmiss; reflexivity|].
    unfold serve, mbind, M_bind, bind.
    destruct (load_US_DASHBOARD_DATA_prints w) as (out1 & ->).
    destruct (dashboard_euro_missing
                (default (PAuctions []) (files w !! app.US_AUCTION_CACHE_FILE))
                today args {| files := files w; stdout := app (stdout w) out1 |}
                code name Hc Hne Hname Hmiss) as (out2 & ->).
    eexists. split; reflexivity.
  - intros df Hf Hempty. split; [rewrite (read_pickle_present _ _ _ Hf); reflexivity|].
    unfold serve, mbind, M_bind, bind.
    destruct (load_US_DASHBOARD_DATA_prints w) as (out1 & ->).
    unfold dashboard. rewrite Hc.
    destruct (String.eqb_spec code "US") as [|_]; [contradiction|].
    rewrite Hname. unfold try_except, mbind, M_bind, bind.
    fold (euro_cache_file code).
    rewrite (read_pickle_present _ (PSummary df)) by exact Hf.
    unfold create_euro_plotly_charts. rewrite Hempty.
    eexists. split; reflexivity.
  - unfold euro_missing, NO_DATA. intros [=].
Qed.

Lemma cache_load_contract_witness :
  dict_get app.EURO_COUNTRIES "IT" = Some "Italy" ∧
  arg_country sample_request_IT = Some "IT" ∧
  (files (mkWorld sample_files []) !! app.US_AUCTION_CACHE_FILE = Some (PAuctions sample_cache) →
   (load_US_DASHBOARD_DATA (mkWorld sample_files [])).1 = Return (PAuctions sample_cache)).
Proof.
  split; [reflexivity|]. split; [reflexivity|].
  exact (proj1 (proj2 (cache_load_contract (mkWorld sample_files []) sample_today
                         sample_request_IT "IT" "Italy" eq_refl eq_refl))
               (PAuctions sample_cache)).
Defined.

(** C9, as the claim has it: the caller could tell a missing cache from
    a cache holding a table without rows.  For the US cache it cannot:
    the data loaded at start-up and the page served are the same. *)
Lemma us_missing_cache_indistinguishable :
  files_no_us_cache !! app.US_AUCTION_CACHE_FILE = None ∧
  files_empty_us_cache !! app.US_AUCTION_CACHE_FILE = Some (PAuctions []) ∧
  ¬ ((load_US_DASHBOARD_DATA (mkWorld files_no_us_cache [])).1
     ≠ (load_US_DASHBOARD_DATA (mkWorld files_empty_us_cache [])).1) ∧
  (serve sample_today sample_request (mkWorld files_no_us_cache [])).1
  = (serve sample_today sample_request (mkWorld files_empty_us_cache [])).1.
Proof.
  split; [reflexivity|]. split; [reflexivity|]. split.
  - intros Hne. apply Hne. vm_compute. reflexivity.
  - vm_compute. reflexivity.
Qed.

(** ** The Euro chart renderer *)

Section EuroCharts.

Lemma zip_with_map_r {A B C} (h : A → B → C) (b : A → B) (l : list A) :
  zip_with h l (map b l) = map (λ r, h r (b r)) l.
Proof. induction l as [|r l IH]; simpl; [reflexivity|]. f_equal. exact IH. Qed.

Lemma index_sum_axis1 df : map fst (sum_axis1 df) = index df.
Proof.
  unfold sum_axis1, index. rewrite <- list_fmap_compose. reflexivity.
Qed.

(** A frame divided by its own row sums: each row by its own total. *)
Lemma divide_sum_axis1 df :
  divide df (sum_axis1 df) =
    {| columns := columns df;
       rows := map (λ r, (r.1, map (λ v, Float.div v (Float.sum r.2)) r.2)) (rows df) |}.
Proof.
  unfold divide. rewrite index_sum_axis1.
  destruct (decide (index df = index df)) as [_|]; [|contradiction].
  unfold sum_axis1. rewrite zip_with_map_r. reflexivity.
Qed.

Lemma rows_euro_pct df_positive :
  rows (euro_pct df_positive) =
    map (λ r, (r.1, map (λ v, Float.mul (Float.div v (Float.sum r.2)) (of_Z 100)) r.2))
        (rows df_positive).
Proof.
  unfold euro_pct. rewrite divide_sum_axis1. unfold map_cells. simpl.
  rewrite <- list_fmap_compose. apply list_fmap_ext. intros k r _. simpl.
  rewrite <- list_fmap_compose. reflexivity.
Qed.

Lemma rows_positive_rows df i r :
  (i, r) ∈ rows (positive_rows df) ↔
    (i, r) ∈ rows df ∧ Float.gtb (Float.sum r) (of_Z 0) = true.
Proof.
  unfold positive_rows, select_rows. simpl. rewrite list_elem_of_filter. tauto.
Qed.

Lemma index_map_cells g df : index (map_cells g df) = index df.
Proof.
  unfold index, map_cells. simpl. rewrite <- list_fmap_compose. reflexivity.
Qed.

Lemma index_euro_pct df : index (euro_pct df) = index df.
Proof.
  unfold index. rewrite rows_euro_pct, <- list_fmap_compose. reflexivity.
Qed.

Lemma add_traces_x order colors df scale tr :
  tr ∈ add_traces order colors df scale → x tr = index df.
Proof.
  unfold add_traces. intros (cat & Htr & _)%list_elem_of_bind.
  destruct (_ && _); [|set_solver].
  apply list_elem_of_singleton in Htr as ->. reflexivity.
Qed.

Lemma add_traces_elem order colors df scale tr :
  tr ∈ add_traces order colors df scale →
  name tr ∈ order ∧ name tr ∈ columns df ∧
  Float.gtb (Float.sum (values (column df (name tr)))) (of_Z 0) = true ∧
  x tr = index df ∧ y tr = map scale (values (column df (name tr))) ∧
  line_color tr = dict_get colors (name tr).
Proof.
  unfold add_traces. intros (cat & Htr & Hcat)%list_elem_of_bind.
  destruct (bool_decide_reflect (cat ∈ columns df)) as [Hc|Hc]; [|set_solver].
  destruct (Float.gtb _ _) eqn:Hs; [|set_solver].
  apply list_elem_of_singleton in Htr as ->. cbn [name x y line_color]. done.
Qed.

(** A column of a frame whose rows are computed row by row. *)
Lemma values_column_rows cols (g : Z * list float → list float) rs c p :
  col_pos c cols = Some p →
  values (column {| columns := cols; rows := map (λ r, (r.1, g r)) rs |} c)
  = map (λ r, default NaN (g r !! p)) rs.
Proof.
  intros Hp. unfold values, column. cbn [columns rows]. rewrite Hp.
  rewrite <- !list_fmap_compose. apply list_fmap_ext. intros k r _. reflexivity.
Qed.

Lemma euro_pct_rows df_positive :
  euro_pct df_positive =
    {| columns := columns df_positive;
       rows := map (λ r, (r.1, map (λ v, Float.mul (Float.div v (Float.sum r.2)) (of_Z 100)) r.2))
                   (rows df_positive) |}.
Proof.
  pose proof (rows_euro_pct df_positive) as Hrows.
  unfold euro_pct in *. rewrite divide_sum_axis1 in *. unfold map_cells in *.
  cbn [columns rows] in *. rewrite Hrows. reflexivity.
Qed.

End EuroCharts.

(** C10. The Euro chart renderer answers "No data to display." twice
    for no table and for an empty one.  Otherwise it keeps the months
    whose total over the tenors is greater than 0, and answers "No
    positive issuance data to plot." twice when no month is kept.  When
    some month is kept both slots hold a chart: every divisor is the
    total of a kept month, so greater than 0; the guide lines and the
    traces of both charts run over the kept months only; each trace of
    the percentage chart shows a tenor column of the table, every cell
    divided by the total of its own kept month and multiplied by 100;
    and each trace of the nominal chart shows a tenor column of the kept
    months divided by 1000. *)
Theorem euro_charts_divide_positive_months (df : DataFrame) (country_name : string) :
  create_euro_plotly_charts None country_name
    = ([Raw "<p>No data to display.</p>"], [Raw "<p>No data to display.</p>"]) ∧
  (empty df = true →
   create_euro_plotly_charts (Some df) country_name
     = ([Raw "<p>No data to display.</p>"], [Raw "<p>No data to display.</p>"])) ∧
  (∀ i r, (i, r) ∈ rows (positive_rows df) ↔
          (i, r) ∈ rows df ∧ Float.gtb (Float.sum r) (of_Z 0) = true) ∧
  (∀ i t, (i, t) ∈ sum_axis1 (positive_rows df) →
          Float.gtb t (of_Z 0) = true ∧ ¬ feq t (Fin 0)) ∧
  rows (euro_pct (positive_rows df)) =
    map (λ r, (r.1, map (λ v, Float.mul (Float.div v (Float.sum r.2)) (of_Z 100)) r.2))
        (rows (positive_rows df)) ∧
  (∀ fig, Plot fig ∈ (create_euro_plotly_charts (Some df) country_name).1 ∨
          Plot fig ∈ (create_euro_plotly_charts (Some df) country_name).2 →
          shapes fig = index (positive_rows df) ∧
          ∀ tr, tr ∈ traces fig → x tr = index (positive_rows df)) ∧
  (empty df = false → empty (positive_rows df) = true →
   create_euro_plotly_charts (Some df) country_name
     = ([Raw "<p>No positive issuance data to plot.</p>"],
        [Raw "<p>No positive issuance data to plot.</p>"])) ∧
  (empty df = false → empty (positive_rows df) = false →
   ∃ fig_pct fig_nominal,
     create_euro_plotly_charts (Some df) country_name
       = ([Plot fig_pct], [Plot fig_nominal]) ∧
     (∀ tr, tr ∈ traces fig_pct →
        name tr ∈ EURO_PLOT_ORDER ∧
        ∃ p, col_pos (name tr) (columns df) = Some p ∧
             y tr = map (λ r, default NaN
                           ((λ v, Float.mul (Float.div v (Float.sum r.2)) (of_Z 100))
                              <$> r.2 !! p))
                        (rows (positive_rows df))) ∧
     (∀ tr, tr ∈ traces fig_nominal →
        name tr ∈ EURO_PLOT_ORDER ∧
        ∃ p, col_pos (name tr) (columns df) = Some p ∧
             y tr = map (λ r, default NaN ((λ v, Float.div v (of_Z 1000)) <$> r.2 !! p))
                        (rows (positive_rows df)))).
Proof.
  split; [reflexivity|]. split.
  { intros Hempty. unfold create_euro_plotly_charts. rewrite Hempty. reflexivity. }
  split; [apply rows_positive_rows|]. split.
  { intros i t ([j r] & [= -> ->] & Hr)%list_elem_of_fmap.
    apply rows_positive_rows in Hr as [_ Hpos]. simpl. split; [exact Hpos|].
    destruct (Float.sum r) as [q| | |]; simpl in *; try (tauto || discriminate).
    intros Hq. unfold Float.gtb, Float.ltb, of_Z in Hpos. simpl in Hpos.
    apply andb_true_iff in Hpos as [_ Hpos]. apply negb_true_iff in Hpos.
    assert (Qeq_bool (inject_Z 0) q = true) as Ht
      by (apply Qeq_bool_iff; symmetry; exact Hq).
    congruence. }
  split; [apply rows_euro_pct|]. split.
  { intros fig. unfold create_euro_plotly_charts.
    destruct (empty df); [unfold NO_DATA; set_solver|].
    destruct (empty (positive_rows df)); [unfold NO_POSITIVE; set_solver|].
    set (tp := add_traces EURO_PLOT_ORDER EURO_PLOTLY_COLORS (euro_pct (positive_rows df)) id).
    set (tn := add_traces EURO_PLOT_ORDER EURO_PLOTLY_COLORS
                 (map_cells _ (positive_rows df)) id).
    assert (∀ tr, tr ∈ tp → x tr = index (positive_rows df)) as Hp.
    { intros tr Htr%add_traces_x. rewrite Htr. apply index_euro_pct. }
    assert (∀ tr, tr ∈ tn → x tr = index (positive_rows df)) as Hn.
    { intros tr Htr%add_traces_x. rewrite Htr. apply index_map_cells. }
    clearbody tp tn. cbn [fst snd].
    intros [Hfig|Hfig]; apply list_elem_of_singleton in Hfig;
      injection Hfig as ->; cbn [shapes traces]; split; (reflexivity || assumption). }
  split.
  { intros Hne Hnone. unfold create_euro_plotly_charts. rewrite Hne, Hnone. reflexivity. }
  intros Hne Hsome. unfold create_euro_plotly_charts. rewrite Hne, Hsome.
  eexists _, _. split; [reflexivity|]. cbn [traces].
  split; intros tr (Ho & Hc & _ & _ & Hy & _)%add_traces_elem;
    (split; [exact Ho|]).
  - rewrite euro_pct_rows in Hc, Hy. cbn [columns] in Hc.
    destruct (col_pos_lookup _ _ Hc) as (p & Hp & _). exists p. split; [exact Hp|].
    rewrite Hy, list_fmap_id. rewrite (values_column_rows _ _ _ _ p Hp).
    apply list_fmap_ext. intros k r _. rewrite list_lookup_fmap. reflexivity.
  - unfold map_cells in Hc, Hy. cbn [columns] in Hc.
    destruct (col_pos_lookup _ _ Hc) as (p & Hp & _). exists p. split; [exact Hp|].
    rewrite Hy, list_fmap_id. rewrite (values_column_rows _ _ _ _ p Hp).
    apply list_fmap_ext. intros k r _. rewrite list_lookup_fmap. reflexivity.
Qed.

Lemma euro_charts_divide_positive_months_witness :
  empty sample_summary = false ∧ empty (positive_rows sample_summary) = false ∧
  index (positive_rows sample_summary) = [month_period (Date 2020 1 1)] ∧
  ∃ fig_pct fig_nominal,
    create_euro_plotly_charts (Some sample_summary) "Germany"
      = ([Plot fig_pct], [Plot fig_nominal]) ∧
    (∀ tr, tr ∈ traces fig_pct →
       name tr ∈ EURO_PLOT_ORDER ∧
       ∃ p, col_pos (name tr) (columns sample_summary) = Some p ∧
            y tr = map (λ r, default NaN
                          ((λ v, Float.mul (Float.div v (Float.sum r.2)) (of_Z 100))
                             <$> r.2 !! p))
                       (rows (positive_rows sample_summary))) ∧
    (∀ tr, tr ∈ traces fig_nominal →
       name tr ∈ EURO_PLOT_ORDER ∧
       ∃ p, col_pos (name tr) (columns sample_summary) = Some p ∧
            y tr = map (λ r, default NaN ((λ v, Float.div v (of_Z 1000)) <$> r.2 !! p))
                       (rows (positive_rows sample_summary))).
Proof.
  split; [reflexivity|]. split; [reflexivity|]. split; [reflexivity|].
  exact (proj2 (proj2 (proj2 (proj2 (proj2 (proj2 (proj2
           (euro_charts_divide_positive_months sample_summary "Germany")))))))
           eq_refl eq_refl).
Defined.

(** ** The model on the sample inputs *)

Example sample_bins :
  map maturity_bin sample_cache = ["1-3 Months"; "10+ Years"; "10+ Years"].
Proof. reflexivity. Qed.

Example sample_quarterly_issuance :
  quarterly_issuance sample_cache = [(8096, Fin 400); (8097, Fin 0); (8098, Fin 0)].
Proof. vm_compute. reflexivity. Qed.

Example sample_quarterly_mix_nominal :
  quarterly_mix_nominal sample_cache =
    {| columns := ["1-3 Months"; "10+ Years"];
       rows := [(8096, [Fin 100; Fin 300]); (8098, [Fin 0; Fin 0])] |}.
Proof. vm_compute. reflexivity. Qed.

Example sample_empty_fetch_exit_status :
  (run {| BASE_URL := None; requests_get := λ _, HttpOk [] None;
          ecb_data := λ _ _, EcbFailed "404 Not Found" |}
       ["update_data.py"; "daily"] (mkWorld sample_files [])).1 = 1.
Proof. vm_compute. reflexivity. Qed.

(** * Further properties of the refresh job *)

Section Effects.
Variable E : env.

Lemma effects_bind {A B} (m : M A) (k : A → M B) a o g h f :
  effects m (Return a) g → effects (k a) o h → (∀ fs, f fs = h (g fs)) →
  effects (m ≫= k) o f.
Proof.
  intros Hm Hk Hf w. destruct (Hm w) as (out1 & H1).
  destruct (Hk {| files := g (files w); stdout := app (stdout w) out1 |}) as (out2 & H2).
  exists (app out1 out2). unfold mbind, M_bind, bind. rewrite H1, H2. simpl.
  rewrite app_assoc, Hf. reflexivity.
Qed.

Lemma effects_bind_raise {A B} (m : M A) (k : A → M B) e g :
  effects m (Raise e) g → effects (m ≫= k) (Raise e) g.
Proof.
  intros Hm w. destruct (Hm w) as (out & H). exists out.
  unfold mbind, M_bind, bind. rewrite H. reflexivity.
Qed.

Lemma prints_effects {A} (m : M A) a : prints m a → effects m (Return a) id.
Proof. intros H w. exact (H w). Qed.

Lemma writes_effects {A} (m : M A) a g : writes m a g → effects m (Return a) g.
Proof. intros H w. exact (H w). Qed.

Lemma fetch_pages_raise url pages acc e :
  fetch_pages E url pages acc = Raise e → is_request_exception e = true.
Proof.
  revert acc. induction pages as [|p pages IH]; intros acc; simpl; [discriminate|].
  destruct (requests_get E (url p)); [apply IH|]. intros [= <-]. reflexivity.
Qed.

Lemma fetch_pages_all url pages acc :
  (∀ p, p ∈ pages → ∃ d t, requests_get E (url p) = HttpOk d t) →
  fetch_pages E url pages acc
    = Return (app acc (concat (map (λ p, page_data E (url p)) pages))).
Proof.
  revert acc. induction pages as [|p pages IH]; intros acc Hok; simpl.
  - rewrite app_nil_r. reflexivity.
  - destruct (Hok p) as (d & t & Hp); [left|].
    unfold page_data at 1. rewrite Hp.
    rewrite IH by (intros; apply Hok; right; assumption).
    rewrite <- app_assoc. reflexivity.
Qed.

(** [fetch_us_data] only prints, and returns what the pages determine. *)
Lemma fetch_us_data_result base_url endpoint api_filter :
  prints (fetch_us_data E base_url endpoint api_filter)
         (us_fetch_result E base_url endpoint api_filter).
Proof.
  intros w. unfold fetch_us_data, us_fetch_result.
  set (url := page_url base_url endpoint api_filter 100).
  unfold mbind, M_bind, bind, try_except, print, raise, mret, M_ret, ret. simpl.
  destruct (requests_get E (url 1)) as [data tp|msg]; simpl.
  - destruct (fetch_pages E url (zrange 2 (default 1 tp)) data) as [recs|e] eqn:Hp; simpl.
    + eexists. rewrite <- app_assoc. reflexivity.
    + rewrite (fetch_pages_raise _ _ _ _ Hp). eexists. rewrite <- app_assoc. reflexivity.
  - eexists. rewrite <- app_assoc. reflexivity.
Qed.

Lemma update_us_cache_effects :
  effects (update_us_cache E 2000) (us_outcome E) (us_write E).
Proof.
  unfold update_us_cache, us_outcome, us_write, us_daily_result.
  pose proof (fetch_us_data_result (US_BASE_URL E) US_AUCTION_ENDPOINT daily_filter) as Hf.
  destruct (us_fetch_result E (US_BASE_URL E) US_AUCTION_ENDPOINT daily_filter)
    as [[|r rs]|].
  - eapply (effects_bind _ _ _ _ id id); [apply prints_effects, prints_print| |reflexivity].
    eapply (effects_bind _ _ _ _ id id); [apply prints_effects, Hf| |reflexivity].
    eapply (effects_bind _ _ _ _ id id); [apply prints_effects, prints_print| |reflexivity].
    intros w. exists []. unfold raise. rewrite app_nil_r. destruct w. reflexivity.
  - destruct (existsb timedelta_overflows (r :: rs)) eqn:Hover.
    + eapply (effects_bind _ _ _ _ id id); [apply prints_effects, prints_print| |reflexivity].
      eapply (effects_bind _ _ _ _ id id); [apply prints_effects, Hf| |reflexivity].
      eapply (effects_bind _ _ _ _ id id); [apply prints_effects, prints_print| |reflexivity].
      rewrite Hover.
      intros w. exists []. unfold raise. rewrite app_nil_r. destruct w. reflexivity.
    + eapply (effects_bind _ _ _ _ id); [apply prints_effects, prints_print| |reflexivity].
      eapply (effects_bind _ _ _ _ id); [apply prints_effects, Hf| |reflexivity].
      eapply (effects_bind _ _ _ _ id); [apply prints_effects, prints_print| |reflexivity].
      rewrite Hover.
      eapply (effects_bind _ _ _ _ _ id);
        [apply writes_effects, to_pickle_writes|apply prints_effects, prints_print|reflexivity].
  - eapply (effects_bind _ _ _ _ id id); [apply prints_effects, prints_print| |reflexivity].
    eapply (effects_bind _ _ _ _ id id); [apply prints_effects, Hf| |reflexivity].
    apply prints_effects, prints_print.
Qed.

Lemma us_fetch_succeeds_result records :
  us_fetch_succeeds E records → us_daily_result E = Some records.
Proof.
  intros (data & tp & H1 & Hall & ->).
  unfold us_daily_result, us_fetch_result. unfold daily_url, daily_filter in *.
  rewrite H1, fetch_pages_all by exact Hall. reflexivity.
Qed.

End Effects.

Section MainEffects.
Variable E : env.

Lemma main_effects argv :
  effects (main E argv) (main_outcome E argv) (main_write E argv).
Proof.
  unfold main, main_outcome, main_write.
  destruct (bool_decide (argv !! 1%nat = Some "daily")); [apply update_us_cache_effects|].
  destruct (bool_decide (argv !! 1%nat = Some "monthly")).
  { apply writes_effects, update_euro_cache_writes. }
  pose proof (update_us_cache_effects E) as Hus.
  destruct (us_outcome E) as [[]|e].
  - eapply (effects_bind _ _ _ _ id (λ fs, euro_writes E (us_write E fs)));
      [apply prints_effects, prints_print| |reflexivity].
    eapply (effects_bind _ _ _ _ (us_write E) (euro_writes E));
      [exact Hus|apply writes_effects, update_euro_cache_writes|reflexivity].
  - eapply (effects_bind _ _ _ _ id (us_write E));
      [apply prints_effects, prints_print| |reflexivity].
    apply effects_bind_raise. exact Hus.
Qed.

Lemma run_effects argv w :
  (run E argv w).1 = exit_status (main_outcome E argv) ∧
  files (run E argv w).2 = main_write E argv (files w).
Proof.
  unfold run. destruct (main_effects argv w) as (out & ->). split; reflexivity.
Qed.

Lemma us_write_lookup fs path :
  us_write E fs !! path =
    match (match us_daily_result E with
           | Some (r :: rs) =>
               if existsb timedelta_overflows (r :: rs) then None
               else if decide (path = update_data.US_AUCTION_CACHE_FILE)
                    then Some (PAuctions (map prepare_row (r :: rs))) else None
           | _ => None
           end) with
    | Some p => Some p
    | None => fs !! path
    end.
Proof.
  unfold us_write. destruct (us_daily_result E) as [[|r rs]|]; try reflexivity.
  destruct (existsb timedelta_overflows (r :: rs)); [reflexivity|].
  destruct (decide (path = update_data.US_AUCTION_CACHE_FILE)) as [->|Hne].
  - apply lookup_insert_eq.
  - apply lookup_insert_ne. congruence.
Qed.

Lemma euro_write_lookup code fs path :
  euro_write E code fs !! path =
    match (match succeeded E code with
           | [] => None
           | frames => if decide (path = euro_cache_file code)
                       then Some (PSummary (consolidate frames)) else None
           end) with
    | Some p => Some p
    | None => fs !! path
    end.
Proof.
  unfold euro_write. destruct (succeeded E code) as [|f frames]; [reflexivity|].
  destruct (decide (path = euro_cache_file code)) as [->|Hne].
  - apply lookup_insert_eq.
  - apply lookup_insert_ne. congruence.
Qed.

Lemma overlay_id : overlay id.
Proof. exists (λ _, None). reflexivity. Qed.

Lemma overlay_compose g h : overlay g → overlay h → overlay (λ fs, h (g fs)).
Proof.
  intros (tg & Hg) (th & Hh).
  exists (λ path, match th path with Some p => Some p | None => tg path end).
  intros fs path. rewrite Hh, Hg. destruct (th path); reflexivity.
Qed.

Lemma overlay_idempotent h fs : overlay h → h (h fs) = h fs.
Proof.
  intros (t & Ht). apply map_eq. intros path. rewrite !Ht.
  destruct (t path); reflexivity.
Qed.

Lemma overlay_us_write : overlay (us_write E).
Proof. eexists. intros fs path. apply us_write_lookup. Qed.

Lemma overlay_euro_write code : overlay (euro_write E code).
Proof. eexists. intros fs path. apply euro_write_lookup. Qed.

Lemma overlay_euro_writes : overlay (euro_writes E).
Proof.
  unfold euro_writes.
  apply (overlay_compose (λ fs, euro_write E "IT" (euro_write E "DE" fs)) (euro_write E "FR"));
    [|apply overlay_euro_write].
  apply (overlay_compose (euro_write E "DE") (euro_write E "IT")); apply overlay_euro_write.
Qed.

Lemma overlay_main_write argv : overlay (main_write E argv).
Proof.
  unfold main_write. repeat case_bool_decide.
  - apply overlay_us_write.
  - apply overlay_euro_writes.
  - destruct (us_outcome E); [|apply overlay_us_write].
    apply (overlay_compose (us_write E) (euro_writes E));
      [apply overlay_us_write|apply overlay_euro_writes].
Qed.

Lemma euro_writes_other fs path :
  path ∉ map euro_cache_file ["DE"; "IT"; "FR"] →
  euro_writes E fs !! path = fs !! path.
Proof.
  intros Hp. unfold euro_writes. rewrite !euro_write_lookup.
  assert (∀ code, code ∈ ["DE"; "IT"; "FR"] → path ≠ euro_cache_file code) as Hne.
  { intros code Hc ->. apply Hp. apply list_elem_of_fmap. eauto. }
  repeat match goal with
         | |- context [succeeded E ?c] => destruct (succeeded E c)
         | |- context [decide (path = euro_cache_file ?c)] =>
             destruct (decide (path = euro_cache_file c)) as [Heq|_];
             [exfalso; apply (Hne c); [set_solver|exact Heq]|]
         end; reflexivity.
Qed.

Lemma row_prepared_prepare_row j : row_prepared (prepare_row j).
Proof.
  unfold row_prepared, prepare_row. simpl. repeat split.
  - destruct (j_total_accepted j); reflexivity.
  - destruct (j_offering_amt j); reflexivity.
  - apply assign_maturity_bin_label.
Qed.

Lemma us_write_prepared fs : us_cache_prepared fs → us_cache_prepared (us_write E fs).
Proof.
  intros Hfs df. rewrite us_write_lookup.
  destruct (us_daily_result E) as [[|r rs]|]; try apply Hfs.
  destruct (existsb timedelta_overflows (r :: rs)); [apply Hfs|].
  rewrite decide_True by reflexivity. intros [= <-].
  change (Forall row_prepared (map prepare_row (r :: rs))).
  apply Forall_fmap, Forall_forall. intros j _. apply row_prepared_prepare_row.
Qed.

Lemma euro_writes_prepared fs :
  us_cache_prepared fs → us_cache_prepared (euro_writes E fs).
Proof.
  intros Hfs df. rewrite euro_writes_other; [apply Hfs|].
  intros (c & Hc & _)%list_elem_of_fmap. discriminate Hc.
Qed.

End MainEffects.

(** X1. Whatever float the duration column holds (an integer, NaN, an
    infinity), the binner answers with one of the seven labels of
    US_PLOT_ORDER, so every cached row carries a label the charts know. *)
Theorem maturity_bin_is_a_plot_label (days : float) (j : auction_json) :
  assign_maturity_bin days ∈ US_PLOT_ORDER ∧
  maturity_bin (prepare_row j) ∈ US_PLOT_ORDER.
Proof. split; apply assign_maturity_bin_label. Qed.

(** X2. When the first page and every page it announces are served,
    [fetch_us_data] returns the records of all pages in page order,
    touching no file; without a page count, or with a count below 2,
    these are the records of the first page. *)
Theorem fetch_us_data_all_pages (E : env) (base_url endpoint api_filter : string)
    (w : world) (data : list auction_json) (total_pages : option Z) :
  let url := page_url base_url endpoint api_filter 100 in
  let all_records :=
    app data (concat (map (λ p, page_data E (url p)) (zrange 2 (default 1 total_pages)))) in
  requests_get E (url 1) = HttpOk data total_pages →
  (∀ p, p ∈ zrange 2 (default 1 total_pages) → ∃ d t, requests_get E (url p) = HttpOk d t) →
  (∃ out, fetch_us_data E base_url endpoint api_filter w =
            (Return (Some all_records),
             {| files := files w; stdout := app (stdout w) out |})) ∧
  (default 1 total_pages < 2 → all_records = data).
Proof.
  intros url all_records H1 Hall. split.
  - destruct (fetch_us_data_result E base_url endpoint api_filter w) as (out & ->).
    exists out. unfold us_fetch_result. fold url. rewrite H1.
    rewrite fetch_pages_all by exact Hall. reflexivity.
  - intros Hlt. subst all_records. unfold zrange.
    replace (Z.to_nat (default 1 total_pages - 2 + 1)) with O by lia.
    simpl. apply app_nil_r.
Qed.

Lemma fetch_us_data_all_pages_witness :
  ∃ out, fetch_us_data env_two_pages
           "https://api.fiscaldata.treasury.gov/services/api/fiscal_service"
           update_data.US_AUCTION_ENDPOINT daily_filter (mkWorld sample_files []) =
         (Return (Some sample_records), {| files := sample_files; stdout := out |}).
Proof.
  refine (proj1 (fetch_us_data_all_pages env_two_pages
            "https://api.fiscaldata.treasury.gov/services/api/fiscal_service"
            update_data.US_AUCTION_ENDPOINT daily_filter (mkWorld sample_files [])
            (take 2 sample_records) (Some 2) _ _)).
  - vm_compute. reflexivity.
  - intros p _. simpl. destruct (String.eqb _ _); eexists _, _; reflexivity.
Defined.






(** X4. When the fetch succeeds but returns no record, the US refresh
    stops with KeyError 'issue_date' and writes nothing; run daily or
    without argument, the script exits with status 1 and no file is
    changed (the Euro refresh is not reached). *)
Theorem update_us_cache_no_records (E : env) (w : world) :
  us_fetch_succeeds E [] →
  (∃ out, update_us_cache E 2000 w =
            (Raise (KeyError "issue_date"),
             {| files := files w; stdout := app (stdout w) out |})) ∧
  (∀ argv, argv !! 1%nat ≠ Some "monthly" →
           (run E argv w).1 = 1 ∧ files (run E argv w).2 = files w).
Proof.
  intros Hok. pose proof (us_fetch_succeeds_result E [] Hok) as Hres. split.
  - destruct (update_us_cache_effects E w) as (out & ->). exists out.
    unfold us_outcome, us_write. rewrite Hres. reflexivity.
  - intros argv Hargv. destruct (run_effects E argv w) as [-> ->].
    unfold main_outcome, main_write, us_outcome, us_write. rewrite Hres.
    rewrite (bool_decide_eq_false_2 _ Hargv).
    destruct (bool_decide (argv !! 1%nat = Some "daily")); split; reflexivity.
Qed.

Lemma update_us_cache_no_records_witness :
  (run env_no_records ["update_data.py"] (mkWorld sample_files [])).1 = 1 ∧
  files (run env_no_records ["update_data.py"] (mkWorld sample_files [])).2 = sample_files.
Proof.
  assert (us_fetch_succeeds env_no_records []) as Hok.
  { exists [], None. split; [reflexivity|]. split; [|reflexivity].
    intros p Hp. vm_compute in Hp. inversion Hp. }
  apply (proj2 (update_us_cache_no_records env_no_records (mkWorld sample_files []) Hok)
               ["update_data.py"]).
  discriminate.
Defined.



(** X5. A run of the script keeps the US cache prepared: if every row of
    the cache has amounts that are not NaN, a duration that is the
    difference of its dates and the label of that duration, one of the
    seven, then so has every row after the run, whatever the upstream
    sources answer. *)
Theorem refresh_keeps_cache_prepared (E : env) (argv : list string) (w : world) :
  us_cache_prepared (files w) → us_cache_prepared (files (run E argv w).2).
Proof.
  intros Hw. destruct (run_effects E argv w) as [_ ->]. unfold main_write.
  repeat case_bool_decide.
  - apply us_write_prepared, Hw.
  - apply euro_writes_prepared, Hw.
  - destruct (us_outcome E); [apply euro_writes_prepared|]; apply us_write_prepared, Hw.
Qed.

Lemma refresh_keeps_cache_prepared_witness :
  us_cache_prepared ∅ ∧
  us_cache_prepared (files (run env_two_pages ["update_data.py"; "daily"] (mkWorld ∅ [])).2).
Proof.
  assert (us_cache_prepared ∅) as H0.
  { intros df Hdf. rewrite lookup_empty in Hdf. discriminate Hdf. }
  split; [exact H0|].
  exact (refresh_keeps_cache_prepared env_two_pages ["update_data.py"; "daily"]
           (mkWorld ∅ []) H0).
Defined.

(** X6. A run of the script deletes no file: whatever the arguments and
    whatever the upstream sources answer, a file present before the run
    is present after it. *)
Theorem refresh_deletes_nothing (E : env) (argv : list string) (w : world) (path : string) :
  is_Some (files w !! path) → is_Some (files (run E argv w).2 !! path).
Proof.
  intros Hsome. destruct (files (run E argv w).2 !! path) eqn:Hafter; [eauto|].
  apply refresh_never_deletes in Hafter. rewrite Hafter in Hsome.
  destruct Hsome as [? [=]].
Qed.

Lemma refresh_deletes_nothing_witness :
  is_Some (sample_files !! "auctions.pkl") ∧
  is_Some (files (run env_us_down ["update_data.py"] (mkWorld sample_files [])).2
             !! "auctions.pkl").
Proof.
  assert (is_Some (sample_files !! "auctions.pkl")) as H by (vm_compute; eauto).
  split; [exact H|].
  exact (refresh_deletes_nothing env_us_down ["update_data.py"] (mkWorld sample_files [])
           "auctions.pkl" H).
Defined.

(** X7. The two modes keep to their own files: a daily run changes no
    file but the US cache, and a monthly run changes no file but the
    three Euro caches, so never the US cache. *)
Theorem refresh_modes_isolated (E : env) (argv : list string) (w : world) (path : string) :
  (argv !! 1%nat = Some "daily" → path ≠ update_data.US_AUCTION_CACHE_FILE →
   files (run E argv w).2 !! path = files w !! path) ∧
  (argv !! 1%nat = Some "monthly" →
   path ∉ ["euro_data_DE.pkl"; "euro_data_IT.pkl"; "euro_data_FR.pkl"] →
   files (run E argv w).2 !! path = files w !! path) ∧
  (argv !! 1%nat = Some "monthly" →
   files (run E argv w).2 !! update_data.US_AUCTION_CACHE_FILE
     = files w !! update_data.US_AUCTION_CACHE_FILE).
Proof.
  destruct (run_effects E argv w) as [_ ->]. unfold main_write.
  split; [|split].
  - intros Hd Hp. rewrite bool_decide_eq_true_2 by exact Hd.
    rewrite us_write_lookup. destruct (us_daily_result E) as [[|r rs]|]; try reflexivity.
    destruct (existsb timedelta_overflows (r :: rs)); [reflexivity|].
    rewrite decide_False by exact Hp. reflexivity.
  - intros Hm Hp. rewrite bool_decide_eq_false_2 by (rewrite Hm; discriminate).
    rewrite bool_decide_eq_true_2 by exact Hm. apply euro_writes_other. exact Hp.
  - intros Hm. rewrite bool_decide_eq_false_2 by (rewrite Hm; discriminate).
    rewrite bool_decide_eq_true_2 by exact Hm. apply euro_writes_other.
    intros (c & Hc & _)%list_elem_of_fmap. discriminate Hc.
Qed.

Lemma refresh_modes_isolated_witness :
  files (run env_us_down ["update_data.py"; "monthly"] (mkWorld sample_files [])).2
    !! update_data.US_AUCTION_CACHE_FILE = Some (PAuctions sample_cache).
Proof.
  exact (proj2 (proj2 (refresh_modes_isolated env_us_down ["update_data.py"; "monthly"]
                         (mkWorld sample_files []) "auctions.pkl")) eq_refl).
Defined.

(** X8. Refreshing twice against the same upstream answers leaves the
    files as the first refresh left them, and ends the same way. *)
Theorem refresh_idempotent (E : env) (argv : list string) (w : world) :
  files (run E argv (run E argv w).2).2 = files (run E argv w).2 ∧
  (run E argv (run E argv w).2).1 = (run E argv w).1.
Proof.
  destruct (run_effects E argv (run E argv w).2) as [-> ->].
  destruct (run_effects E argv w) as [-> ->].
  split; [|reflexivity]. apply overlay_idempotent, overlay_main_write.
Qed.



(** * Further properties of the quarterly tables *)

Section QuarterlyTables.
Variable df_filtered : list auction.

Lemma zmin_elem (l : list Z) lo : zmin l = Some lo → lo ∈ l.
Proof.
  destruct l as [|a l]; [discriminate|]. simpl. intros [= <-].
  induction l as [|b l IH]; simpl; [left|].
  destruct (Z.min_spec b (foldr Z.min a l)) as [[_ ->]|[_ ->]]; [set_solver|].
  apply elem_of_cons in IH as [->|IH]; set_solver.
Qed.

Lemma zmax_elem (l : list Z) hi : zmax l = Some hi → hi ∈ l.
Proof.
  destruct l as [|a l]; [discriminate|]. simpl. intros [= <-].
  induction l as [|b l IH]; simpl; [left|].
  destruct (Z.max_spec b (foldr Z.max a l)) as [[_ ->]|[_ ->]]; [|set_solver].
  apply elem_of_cons in IH as [->|IH]; set_solver.
Qed.

(** The periods of the resampled series: those between the first and the
    last period of the input. *)
Lemma elem_of_resample_sum (l : list (Z * float)) i :
  i ∈ map fst (resample_sum l) ↔ ∃ a b, a ∈ map fst l ∧ b ∈ map fst l ∧ a <= i <= b.
Proof.
  unfold resample_sum.
  destruct (zmin (map fst l)) as [lo|] eqn:Hlo.
  - destruct (zmax (map fst l)) as [hi|] eqn:Hhi.
    + rewrite map_fst_pairs, elem_of_zrange. split.
      * intros Hi. exists lo, hi. split; [eapply zmin_elem; eassumption|].
        split; [eapply zmax_elem; eassumption|exact Hi].
      * intros (a & b & Ha & Hb & Hab).
        pose proof (zmin_le _ _ _ Hlo Ha). pose proof (zmax_ge _ _ _ Hhi Hb). lia.
    + destruct (map fst l); discriminate.
  - destruct (map fst l) as [|a l'] eqn:Hl; [|discriminate]. simpl. split; [set_solver|].
    intros (a & b & Ha & _). set_solver.
Qed.

Lemma index_quarterly_issuance i :
  i ∈ map fst (quarterly_issuance df_filtered) ↔
    ∃ r1 r2, r1 ∈ df_filtered ∧ r2 ∈ df_filtered ∧
             quarter (issue_date r1) <= i <= quarter (issue_date r2).
Proof.
  unfold quarterly_issuance. rewrite elem_of_resample_sum, <- list_fmap_compose. split.
  - intros (a & b & (r1 & -> & H1)%list_elem_of_fmap & (r2 & -> & H2)%list_elem_of_fmap & Hab).
    eauto 6.
  - intros (r1 & r2 & H1 & H2 & Hab). eexists _, _.
    split; [apply list_elem_of_fmap; exists r1; done|].
    split; [apply list_elem_of_fmap; exists r2; done|exact Hab].
Qed.

Lemma index_divide_build idx cols f (s : Series) i :
  i ∈ index (divide (build idx cols f) s) ↔ i ∈ idx ∨ i ∈ map fst s.
Proof.
  unfold divide. rewrite index_build. destruct (decide (idx = map fst s)) as [Heq|Hne].
  - unfold index. simpl.
    assert (map fst (zip_with (λ r e, (r.1, map (λ v, Float.div v e.2) r.2))
                       (map (λ i0, (i0, map (f i0) cols)) idx) s) = idx) as ->.
    { subst idx. induction s as [|e s IH]; simpl; [reflexivity|].
      f_equal. apply IH. }
    rewrite <- Heq. tauto.
  - rewrite index_build, elem_of_sort_uniq_Z, elem_of_app. tauto.
Qed.

End QuarterlyTables.

(** X10. The percentage table has a row for every quarter from the first
    to the last quarter of the filtered records, also for quarters
    without any record, while the nominal table has a row only for the
    quarters that have records. *)
Theorem quarterly_tables_periods (df_filtered : list auction) (i : Z) :
  (i ∈ index (quarterly_mix_pct df_filtered) ↔
     ∃ r1 r2, r1 ∈ df_filtered ∧ r2 ∈ df_filtered ∧
              quarter (issue_date r1) <= i <= quarter (issue_date r2)) ∧
  (i ∈ index (quarterly_mix_nominal df_filtered) ↔
     ∃ r, r ∈ df_filtered ∧ quarter (issue_date r) = i).
Proof.
  split; [|apply index_quarterly_mix_nominal].
  unfold quarterly_mix_pct. rewrite !index_map_cells.
  rewrite quarterly_mix_nominal_build, index_divide_build.
  rewrite index_quarterly_issuance, index_quarterly_mix_nominal.
  split; [|tauto].
  intros [(r & Hr & <-)|H]; [|exact H]. exists r, r. repeat split; (assumption || lia).
Qed.

Lemma quarterly_tables_periods_witness :
  8097 ∈ index (quarterly_mix_pct sample_cache) ∧
  ¬ 8097 ∈ index (quarterly_mix_nominal sample_cache).
Proof.
  split.
  - apply (proj2 (proj1 (quarterly_tables_periods sample_cache 8097))).
    exists (prepare_row (mkJson (Date 2024 1 15) (Some (Date 2024 3 1)) None "4-Week"
                                (of_Z 100) (of_Z 0))),
           (prepare_row (mkJson (Date 2024 8 1) None (Some (Date 2030 1 1)) "13-Week"
                                NaN (of_Z 50))).
    split; [left|]. split; [right; right; left|]. vm_compute. split; discriminate.
  - vm_compute. intros H. repeat (apply elem_of_cons in H as [H|H]; [discriminate H|]).
    inversion H.
Defined.

Lemma str_le_total : Total str_le.
Proof. intros a b. unfold str_le. apply String.leb_total. Qed.

Lemma NoDup_sort_uniq_Z (l : list Z) : NoDup (sort_uniq_Z l).
Proof.
  unfold sort_uniq_Z. rewrite merge_sort_Permutation. apply NoDup_remove_dups.
Qed.

Lemma index_divide_build_eq idx cols f (s : Series) :
  index (divide (build idx cols f) s) =
    if decide (idx = map fst s) then idx else sort_uniq_Z (app idx (map fst s)).
Proof.
  unfold divide. rewrite index_build. destruct (decide (idx = map fst s)) as [Heq|Hne].
  - unfold index. simpl. subst idx.
    induction s as [|e s IH]; simpl; [reflexivity|]. f_equal. apply IH.
  - apply index_build.
Qed.

Lemma rows_build idx cols f i row :
  (i, row) ∈ rows (build idx cols f) ↔ i ∈ idx ∧ row = map (f i) cols.
Proof.
  unfold build. simpl. rewrite list_elem_of_fmap. split.
  - intros (j & [= -> ->] & Hj). done.
  - intros [Hi ->]. exists i. done.
Qed.

(** X12. Both quarterly tables are well formed: their quarters are in
    ascending order without repetition, their columns are sorted without
    repetition and are the same in both, and every row has one cell per
    column. *)
Theorem quarterly_tables_well_formed (df_filtered : list auction) :
  let nominal := quarterly_mix_nominal df_filtered in
  let pct := quarterly_mix_pct df_filtered in
  Sorted Z.le (index nominal) ∧ NoDup (index nominal) ∧
  Sorted Z.le (index pct) ∧ NoDup (index pct) ∧
  Sorted str_le (columns nominal) ∧ NoDup (columns nominal) ∧
  columns pct = columns nominal ∧
  Forall (λ r, length r.2 = length (columns nominal)) (rows nominal) ∧
  Forall (λ r, length r.2 = length (columns pct)) (rows pct).
Proof.
  intros nominal pct.
  assert (Sorted Z.le (index nominal) ∧ NoDup (index nominal)) as [Hs Hn].
  { subst nominal. unfold quarterly_mix_nominal, unstack. rewrite index_build.
    split; [apply (Sorted_merge_sort Z.le)|apply NoDup_sort_uniq_Z]. }
  assert (Sorted Z.le (index pct) ∧ NoDup (index pct)) as [Hsp Hnp].
  { subst pct. unfold quarterly_mix_pct. rewrite !index_map_cells.
    pose proof (quarterly_mix_nominal_build df_filtered) as Hb.
    fold nominal in Hb. fold nominal. rewrite Hb, index_divide_build_eq.
    destruct (decide _); [done|].
    split; [apply (Sorted_merge_sort Z.le)|apply NoDup_sort_uniq_Z]. }
  split; [exact Hs|]. split; [exact Hn|]. split; [exact Hsp|]. split; [exact Hnp|].
  split; [apply (@Sorted_merge_sort _ str_le _ str_le_total)|].
  split; [apply NoDup_sort_uniq_str|].
  split; [apply columns_quarterly_mix_pct|]. split.
  - apply Forall_forall. intros [i row] Hr. subst nominal.
    rewrite quarterly_mix_nominal_build in Hr. apply rows_build in Hr as [_ ->].
    simpl. apply length_fmap.
  - apply Forall_forall. intros [i row] Hr. subst pct.
    apply quarterly_mix_pct_rows in Hr. rewrite Hr, columns_quarterly_mix_pct. simpl.
    apply length_fmap.
Qed.

(** * Further properties of the web handler *)

(** X13. The handler only reads: loading the US cache at start-up and
    serving a request leave every file as it was, also when the handler
    ends with an exception. *)
Theorem handler_reads_only (data : pickle) (today : date) (args : request) (w : world) :
  files (load_US_DASHBOARD_DATA w).2 = files w ∧
  files (dashboard data today args w).2 = files w ∧
  files (serve today args w).2 = files w.
Proof.
  assert (∀ d w0, files (dashboard d today args w0).2 = files w0) as Hd.
  { intros d w0. unfold dashboard.
    destruct (String.eqb _ "US").
    - destruct (pickle_empty d); [reflexivity|]. destruct d as [[|r l]|df]; reflexivity.
    - destruct (dict_get app.EURO_COUNTRIES _) as [name|]; [|reflexivity].
      unfold try_except, read_pickle, mbind, M_bind, bind, print. simpl.
      destruct (files w0 !! _) as [[[|r l]|df]|]; reflexivity. }
  assert (files (load_US_DASHBOARD_DATA w).2 = files w) as Hl.
  { destruct (load_US_DASHBOARD_DATA_prints w) as (out & ->). reflexivity. }
  split; [exact Hl|]. split; [apply Hd|].
  unfold serve, mbind, M_bind, bind.
  destruct (load_US_DASHBOARD_DATA_prints w) as (out & ->). rewrite Hd. reflexivity.
Qed.

(** X14. A country code that is neither US nor a Euro country gets a
    page with the generic title and empty chart slots; nothing is read,
    printed or raised. *)
Theorem dashboard_unknown_country (data : pickle) (today : date) (args : request)
    (w : world) (code : string) :
  arg_country args = Some code →
  code ≠ "US" →
  dict_get app.EURO_COUNTRIES code = None →
  dashboard data today args w =
    (Return {| title := "Debt Issuance Dashboard";
               chart_html := []; nominal_chart_html := []; future_table_html := [];
               selected_country := code; start_date := None; end_date := None |}, w).
Proof.
  intros Hargs Hne Hnone.
  assert (default "US" (arg_country args) = code) as Hc by (rewrite Hargs; reflexivity).
  unfold dashboard. rewrite Hc.
  destruct (String.eqb_spec code "US") as [|_]; [contradiction|].
  rewrite Hnone. reflexivity.
Qed.

Lemma dashboard_unknown_country_witness :
  (dashboard (PAuctions sample_cache) sample_today
     {| arg_country := Some "ES"; arg_start_date := None; arg_end_date := None |}
     (mkWorld sample_files [])).1
  = Return {| title := "Debt Issuance Dashboard";
              chart_html := []; nominal_chart_html := []; future_table_html := [];
              selected_country := "ES"; start_date := None; end_date := None |}.
Proof.
  rewrite (dashboard_unknown_country (PAuctions sample_cache) sample_today
             {| arg_country := Some "ES"; arg_start_date := None; arg_end_date := None |}
             (mkWorld sample_files []) "ES" eq_refl); [reflexivity|discriminate|reflexivity].
Defined.

Lemma filter_range_nil start_date end_date data :
  (∀ r, r ∈ data →
        date_leb start_date (issue_date r) && date_leb (issue_date r) end_date = false) →
  filter_range start_date end_date data = [].
Proof.
  intros Hout. unfold filter_range.
  induction data as [|r l IH]; [reflexivity|].
  rewrite filter_cons_False by (rewrite Hout by left; discriminate).
  apply IH. intros. apply Hout. right. assumption.
Qed.

(** X15. When the date window contains no cached record, the US page
    shows "No data for selected date range." in both chart slots, while
    the window and the forthcoming-auctions table are still rendered. *)
Theorem dashboard_us_empty_window (first : auction) (rest : list auction) (today : date)
    (args : request) (w : world) (start_date end_date : date) :
  default "US" (arg_country args) = "US" →
  arg_start_date args = Some start_date →
  arg_end_date args = Some end_date →
  (∀ r, r ∈ first :: rest →
        date_leb start_date (issue_date r) && date_leb (issue_date r) end_date = false) →
  dashboard (PAuctions (first :: rest)) today args w =
    (Return {| title := "U.S. Treasury Debt Issuance Dashboard";
               chart_html := [Raw "<p>No data for selected date range.</p>"];
               nominal_chart_html := [Raw "<p>No data for selected date range.</p>"];
               future_table_html := future_table (first :: rest) today;
               selected_country := "US";
               start_date := Some start_date; end_date := Some end_date |}, w).
Proof.
  intros Hus Hs He Hout. unfold dashboard. rewrite Hus. simpl.
  unfold us_dashboard. rewrite Hs, He. simpl default.
  rewrite (filter_range_nil _ _ _ Hout). reflexivity.
Qed.

Lemma dashboard_us_empty_window_witness :
  chart_html <$>
    (match (dashboard (PAuctions sample_cache) sample_today
              {| arg_country := None; arg_start_date := Some (Date 2025 1 1);
                 arg_end_date := Some (Date 2025 12 31) |} (mkWorld sample_files [])).1 with
     | Return p => Some p
     | Raise _ => None
     end) = Some [Raw "<p>No data for selected date range.</p>"].
Proof.
  set (first := prepare_row (mkJson (Date 2024 1 15) (Some (Date 2024 3 1)) None "4-Week"
                                    (of_Z 100) (of_Z 0))).
  set (rest := map prepare_row (drop 1 sample_records)).
  change sample_cache with (first :: rest).
  rewrite (dashboard_us_empty_window first rest sample_today
             {| arg_country := None; arg_start_date := Some (Date 2025 1 1);
                arg_end_date := Some (Date 2025 12 31) |} (mkWorld sample_files [])
             (Date 2025 1 1) (Date 2025 12 31) eq_refl eq_refl eq_refl).
  - reflexivity.
  - intros r Hr. repeat (apply elem_of_cons in Hr as [->|Hr]; [vm_compute; reflexivity|]).
    inversion Hr.
Defined.






Lemma auction_date_le_total : Total auction_date_le.
Proof. intros a b. unfold auction_date_le. lia. Qed.

(** X17. The forthcoming-auctions table lists exactly the cached
    auctions whose auction date is after today (a record without auction
    date is never listed), in ascending order of auction date, with the
    offering amount in billions; when there is none, a message takes the
    place of the table. *)
Theorem future_table_forthcoming (data : list auction) (today : date) :
  (∃ rows, future_table data today = [Raw "<h2>Forthcoming Auctions</h2>"; Table rows] ∧
           rows ≠ [] ∧ Sorted auction_date_le rows ∧
           ∀ a term amt, (a, term, amt) ∈ rows ↔
             ∃ r, r ∈ data ∧ auction_date r = Some a ∧ to_ordinal today < to_ordinal a ∧
                  term = security_term r ∧
                  amt = Float.div (offering_amt r) (of_Z 1000000000)) ∨
  (future_table data today = [Raw "<h2>Forthcoming Auctions</h2>";
                              Raw "<p>No future auctions currently announced.</p>"] ∧
   ∀ r a, r ∈ data → auction_date r = Some a → to_ordinal a <= to_ordinal today).
Proof.
  unfold future_table.
  set (pick := λ r : auction,
         match auction_date r with
         | Some a => if date_ltb today a
                     then Some (a, security_term r, Float.div (offering_amt r) (of_Z 1000000000))
                     else None
         | None => None
         end).
  assert (∀ a term amt, (a, term, amt) ∈ omap pick data ↔
            ∃ r, r ∈ data ∧ auction_date r = Some a ∧ to_ordinal today < to_ordinal a ∧
                 term = security_term r ∧
                 amt = Float.div (offering_amt r) (of_Z 1000000000)) as Hspec.
  { intros a term amt. rewrite list_elem_of_omap. subst pick. split.
    - intros (r & Hr & Hp). exists r. split; [exact Hr|].
      destruct (auction_date r) as [a'|]; [|discriminate].
      unfold date_ltb in Hp. destruct (Z.ltb_spec (to_ordinal today) (to_ordinal a'));
        [|discriminate].
      injection Hp as <- <- <-. done.
    - intros (r & Hr & Ha & Hlt & -> & ->). exists r. split; [exact Hr|].
      rewrite Ha. unfold date_ltb.
      destruct (Z.ltb_spec (to_ordinal today) (to_ordinal a)); [reflexivity|lia]. }
  destruct (omap pick data) as [|e rows] eqn:Hrows.
  - right. split; [reflexivity|]. intros r a Hr Ha.
    destruct (Z.le_gt_cases (to_ordinal a) (to_ordinal today)) as [|Hlt]; [assumption|].
    exfalso. assert ((a, security_term r, Float.div (offering_amt r) (of_Z 1000000000))
                     ∈ @nil (date * string * float)) as Hin.
    { apply Hspec. exists r. repeat split; (assumption || lia). }
    inversion Hin.
  - left. exists (merge_sort auction_date_le (e :: rows)). split; [reflexivity|].
    split; [|split].
    + intros Hnil. pose proof (merge_sort_Permutation auction_date_le (e :: rows)) as Hp.
      rewrite Hnil in Hp. apply Permutation_nil_cons in Hp. exact Hp.
    + apply (@Sorted_merge_sort _ auction_date_le _ auction_date_le_total).
    + intros a term amt. rewrite merge_sort_Permutation. apply Hspec.
Qed.

Section Legend.

Lemma add_traces_sublist order colors df scale :
  sublist (map name (add_traces order colors df scale)) order.
Proof.
  unfold add_traces. induction order as [|cat order IH]; [constructor|].
  rewrite bind_cons, fmap_app.
  destruct (_ && _); cbn [fmap list_fmap app name]; constructor; exact IH.
Qed.

Lemma add_traces_lengths order colors df scale tr :
  tr ∈ add_traces order colors df scale → length (y tr) = length (x tr).
Proof.
  intros (_ & _ & _ & -> & -> & _)%add_traces_elem.
  unfold values, column, index. rewrite !length_fmap. reflexivity.
Qed.

Lemma plot_colors_defined code c :
  c ∈ plot_order code → is_Some (dict_get (plot_colors code) c).
Proof.
  unfold plot_order, plot_colors. destruct (String.eqb code "US"); intros Hc;
    repeat (apply elem_of_cons in Hc as [->|Hc]; [eexists; reflexivity|]);
    inversion Hc.
Qed.

Lemma add_traces_legend code df scale :
  legend_in_order code (add_traces (plot_order code) (plot_colors code) df scale).
Proof.
  split; [apply add_traces_sublist|].
  intros tr Htr. pose proof (add_traces_lengths _ _ _ _ _ Htr) as Hlen.
  apply add_traces_elem in Htr as (Ho & _ & _ & _ & _ & Hcol).
  destruct (plot_colors_defined code _ Ho) as (colour & Hc).
  exists colour. rewrite Hcol. done.
Qed.

Lemma not_plot_raw fig msg : Plot fig ∈ [Raw msg] → False.
Proof. intros H%list_elem_of_singleton. discriminate H. Qed.

Lemma create_euro_plotly_charts_legend df country_name fig :
  Plot fig ∈ (create_euro_plotly_charts df country_name).1 ∨
  Plot fig ∈ (create_euro_plotly_charts df country_name).2 →
  legend_in_order "IT" (traces fig).
Proof.
  unfold create_euro_plotly_charts.
  destruct df as [df|]; [|intros [H|H]; destruct (not_plot_raw _ _ H)].
  destruct (empty df); [intros [H|H]; destruct (not_plot_raw _ _ H)|].
  destruct (empty (positive_rows df)); [intros [H|H]; destruct (not_plot_raw _ _ H)|].
  pose proof (add_traces_legend "IT" (euro_pct (positive_rows df)) id) as Hp.
  pose proof (add_traces_legend "IT"
                (map_cells (λ v, Float.div v (of_Z 1000)) (positive_rows df)) id) as Hn.
  change (plot_order "IT") with app.EURO_PLOT_ORDER in Hp, Hn.
  change (plot_colors "IT") with app.EURO_PLOTLY_COLORS in Hp, Hn.
  revert Hp Hn.
  generalize (add_traces app.EURO_PLOT_ORDER app.EURO_PLOTLY_COLORS
                (euro_pct (positive_rows df)) id).
  generalize (add_traces app.EURO_PLOT_ORDER app.EURO_PLOTLY_COLORS
                (map_cells (λ v, Float.div v (of_Z 1000)) (positive_rows df)) id).
  intros tn tp Hp Hn. cbn [fst snd].
  intros [H|H]; apply list_elem_of_singleton in H; injection H as ->;
    cbn [traces]; assumption.
Qed.

Lemma us_dashboard_legend data first today args fig :
  Plot fig ∈ chart_html (us_dashboard data first today args) ∨
  Plot fig ∈ nominal_chart_html (us_dashboard data first today args) →
  legend_in_order "US" (traces fig).
Proof.
  unfold us_dashboard. cbn [chart_html nominal_chart_html].
  destruct (filter_range _ _ data) as [|r l];
    [intros [H|H]; destruct (not_plot_raw _ _ H)|].
  pose proof (add_traces_legend "US" (quarterly_mix_pct (r :: l)) id) as Hp.
  pose proof (add_traces_legend "US" (quarterly_mix_nominal (r :: l))
                (λ v, Float.div v (of_Z 1000000000))) as Hn.
  change (plot_order "US") with app.US_PLOT_ORDER in Hp, Hn.
  change (plot_colors "US") with app.US_PLOTLY_COLORS in Hp, Hn.
  revert Hp Hn.
  generalize (add_traces app.US_PLOT_ORDER app.US_PLOTLY_COLORS
                (quarterly_mix_pct (r :: l)) id).
  generalize (add_traces app.US_PLOT_ORDER app.US_PLOTLY_COLORS
                (quarterly_mix_nominal (r :: l)) (λ v, Float.div v (of_Z 1000000000))).
  intros tn tp Hp Hn. cbn [fst snd].
  intros [H|H]; apply list_elem_of_singleton in H; injection H as ->;
    cbn [traces]; assumption.
Qed.

End Legend.

(** X18. On every page the handler serves, the legend of each chart
    follows the display order of the page (the seven maturity labels on
    the US page, the five tenors on a Euro page), without repetition;
    every trace is drawn in the colour of its category and has one value
    for each of its dates. *)
Theorem page_charts_legend (data : pickle) (today : date) (args : request) (w : world)
    (p : page) (fig : figure) :
  (dashboard data today args w).1 = Return p →
  Plot fig ∈ chart_html p ∨ Plot fig ∈ nominal_chart_html p →
  legend_in_order (selected_country p) (traces fig) ∧ NoDup (map name (traces fig)).
Proof.
  intros Hp Hfig.
  assert (∀ code, NoDup (plot_order code)) as Hnd.
  { intros code. unfold plot_order, app.US_PLOT_ORDER, app.EURO_PLOT_ORDER.
    destruct (String.eqb code "US"); repeat (apply NoDup_cons; split; [set_solver|]);
      apply NoDup_nil_2. }
  assert (legend_in_order (selected_country p) (traces fig)) as Hleg;
    [|split; [exact Hleg|exact (sublist_NoDup _ _ (Hnd _) (proj1 Hleg))]].
  revert Hp. unfold dashboard.
  destruct (String.eqb_spec (default "US" (arg_country args)) "US") as [Hus|Hne].
  - destruct (pickle_empty data).
    + intros [= <-]. cbn [chart_html nominal_chart_html] in Hfig.
      destruct Hfig as [H|H]; destruct (not_plot_raw _ _ H).
    + destruct data as [[|first rest]|df]; try (intros [=]; fail).
      intros [= <-]. apply us_dashboard_legend in Hfig. exact Hfig.
  - destruct (dict_get app.EURO_COUNTRIES _) as [country_name|] eqn:Hname.
    + assert (∀ charts : html * html,
                (Plot fig ∈ charts.1 ∨ Plot fig ∈ charts.2 →
                 legend_in_order "IT" (traces fig)) →
                p = {| title := country_name ++ " Debt Issuance Dashboard";
                       chart_html := charts.1; nominal_chart_html := charts.2;
                       future_table_html := [];
                       selected_country := default "US" (arg_country args);
                       start_date := None; end_date := None |} →
                legend_in_order (selected_country p) (traces fig)) as Hpage.
      { intros charts Hc ->. cbn [chart_html nominal_chart_html selected_country] in *.
        specialize (Hc Hfig). unfold legend_in_order, plot_order, plot_colors in *.
        destruct (String.eqb_spec (default "US" (arg_country args)) "US");
          [contradiction|exact Hc]. }
      unfold try_except, read_pickle, mbind, M_bind, bind, print.
      destruct (files w !! _) as [[[|r l]|df]|]; cbn [fst snd is_file_not_found];
        try (intros [=]; fail).
      * intros [= Hp]. symmetry in Hp. revert Hp. apply (Hpage (NO_DATA, NO_DATA)).
        intros [H|H]; destruct (not_plot_raw _ _ H).
      * intros [= Hp]. symmetry in Hp. revert Hp.
        apply (Hpage (create_euro_plotly_charts (Some df) country_name)).
        apply create_euro_plotly_charts_legend.
      * intros [= Hp]. symmetry in Hp. revert Hp. eapply (Hpage (_, _)).
        intros [H|H]; destruct (not_plot_raw _ _ H).
    + intros [= <-]. cbn [chart_html nominal_chart_html] in Hfig.
      destruct Hfig as [H|H]; inversion H.
Qed.

Lemma page_charts_legend_witness :
  ∃ p fig,
    (dashboard (PAuctions sample_cache) sample_today sample_request (mkWorld ∅ [])).1
      = Return p ∧
    chart_html p = [Plot fig] ∧
    map name (traces fig) = ["1-3 Months"; "10+ Years"] ∧
    legend_in_order "US" (traces fig) ∧ NoDup (map name (traces fig)).
Proof.
  eexists _, _. split; [vm_compute; reflexivity|].
  lazymatch goal with
  | |- chart_html ?p = _ ∧ _ =>
      split; [reflexivity|]; split; [reflexivity|];
      lazymatch goal with
      | |- legend_in_order _ (traces ?f) ∧ _ =>
          refine (page_charts_legend (PAuctions sample_cache) sample_today sample_request
                    (mkWorld ∅ []) p f _ _); [vm_compute; reflexivity|left; left]
      end
  end.
Defined.

(** * Further properties of the Euro charts *)

(** X20. A cached Euro table that has rows and columns but no month with
    a total greater than 0 gives "No positive issuance data to plot."
    in both chart slots. *)
Theorem euro_charts_no_positive_month (df : DataFrame) (country_name : string) :
  empty df = false →
  Forall (λ r, Float.gtb (Float.sum r.2) (of_Z 0) = false) (rows df) →
  create_euro_plotly_charts (Some df) country_name
    = ([Raw "<p>No positive issuance data to plot.</p>"],
       [Raw "<p>No positive issuance data to plot.</p>"]).
Proof.
  intros Hne Hnone. unfold create_euro_plotly_charts. rewrite Hne.
  assert (rows (positive_rows df) = []) as Hrows.
  { unfold positive_rows, select_rows. simpl. revert Hnone. generalize (rows df).
    intros l Hnone. induction Hnone as [|r l Hr Hl IH]; [reflexivity|].
    rewrite filter_cons_False by (intros Hp; simpl in Hp, Hr; congruence). exact IH. }
  assert (empty (positive_rows df) = true) as ->.
  { unfold empty. rewrite Hrows. destruct (columns (positive_rows df)); reflexivity. }
  reflexivity.
Qed.

Lemma euro_charts_no_positive_month_witness :
  create_euro_plotly_charts
    (Some (mkDF ["Up to 1Y"] [(24240, [Fin 0]); (24241, [Fin (-3)])])) "Italy"
    = ([Raw "<p>No positive issuance data to plot.</p>"],
       [Raw "<p>No positive issuance data to plot.</p>"]).
Proof.
  apply euro_charts_no_positive_month; [reflexivity|].
  repeat constructor.
Defined.

Lemma create_euro_plotly_charts_not_missing (df : DataFrame) (country_name name : string) :
  (create_euro_plotly_charts (Some df) country_name).1 ≠ euro_missing name.
Proof.
  unfold create_euro_plotly_charts, euro_missing, NO_DATA, NO_POSITIVE.
  destruct (empty df); [discriminate|].
  destruct (empty (positive_rows df)); [discriminate|].
  cbn [fst]. intros H. discriminate H.
Qed.

(** X21. After a monthly refresh in which at least one tenor of a Euro
    country was fetched, the page of that country is rendered from the
    consolidation of the fetched tenors, and does not show the "cache
    is empty" message. *)
Theorem refresh_then_euro_page (E : env) (argv : list string) (w : world)
    (code name : string) (today : date) (args : request) :
  argv !! 1%nat = Some "monthly" →
  dict_get app.EURO_COUNTRIES code = Some name →
  arg_country args = Some code →
  succeeded E code ≠ [] →
  ∃ p, (serve today args (run E argv w).2).1 = Return p ∧
       (chart_html p, nominal_chart_html p)
         = create_euro_plotly_charts (Some (consolidate (succeeded E code))) name ∧
       chart_html p ≠ euro_missing name.
Proof.
  intros Hargv Hname Hargs Hsucc.
  assert (default "US" (arg_country args) = code) as Hc by (rewrite Hargs; reflexivity).
  assert (code ≠ "US") as Hne by (intros ->; discriminate).
  assert (files (run E argv w).2 !! euro_cache_file code
          = Some (PSummary (consolidate (succeeded E code)))) as Hfile.
  { destruct (run_effects E argv w) as [_ ->]. unfold main_write.
    rewrite bool_decide_eq_false_2 by (rewrite Hargv; discriminate).
    rewrite bool_decide_eq_true_2 by exact Hargv.
    destruct (update_euro_cache_writes E w) as (out & Hrun).
    destruct (update_euro_cache_file E w code name Hname) as [_ Hf].
    rewrite Hrun in Hf. simpl in Hf. unfold euro_writes. rewrite Hf.
    destruct (succeeded E code); [contradiction|reflexivity]. }
  unfold serve, mbind, M_bind, bind.
  destruct (load_US_DASHBOARD_DATA_prints (run E argv w).2) as (out1 & ->).
  unfold dashboard. rewrite Hc.
  destruct (String.eqb_spec code "US") as [|_]; [contradiction|].
  rewrite Hname. unfold try_except, mbind, M_bind, bind.
  fold (euro_cache_file code).
  rewrite (read_pickle_present _ (PSummary (consolidate (succeeded E code)))) by exact Hfile.
  unfold print. cbn [fst snd].
  pose proof (create_euro_plotly_charts_not_missing
                (consolidate (succeeded E code)) name name) as Hnot.
  destruct (create_euro_plotly_charts (Some (consolidate (succeeded E code))) name)
    as [c1 c2].
  eexists. split; [reflexivity|]. cbn [chart_html nominal_chart_html fst snd].
  split; [reflexivity|exact Hnot].
Qed.

Lemma refresh_then_euro_page_witness :
  ∃ p, (serve sample_today {| arg_country := Some "DE"; arg_start_date := None;
                              arg_end_date := None |}
          (run env_us_down ["update_data.py"; "monthly"] (mkWorld sample_files [])).2).1
       = Return p ∧
       (chart_html p, nominal_chart_html p)
         = create_euro_plotly_charts (Some (consolidate (succeeded env_us_down "DE")))
                                     "Germany" ∧
       chart_html p ≠ euro_missing "Germany".
Proof.
  apply (refresh_then_euro_page env_us_down ["update_data.py"; "monthly"]
           (mkWorld sample_files []) "DE" "Germany"); try reflexivity.
  vm_compute. discriminate.
Defined.
